(** * Toto chat: the session shim and the availability probe

    A shallow embedding of [utils/copilot-client] (message accumulation over
    the vendor session's event stream, model partition) and of the CLI
    availability probe (install / login checks), with the properties the
    specification states about them. *)

From Stdlib Require Import ZArith QArith String Ascii List Bool Lia.
From stdpp Require Import base option list.
Import ListNotations.

Close Scope Q_scope.
Open Scope string_scope.

(** ** JavaScript values the code inspects *)

(** A property read through [any]: what [billing.is_premium] may hold. *)
Inductive JsValue :=
| JUndefined
| JNull
| JBool (b : bool)
| JNumber (q : Q)
| JString (s : string).

(** [v !== undefined] *)
Definition is_defined (v : JsValue) : bool :=
  match v with JUndefined => false | _ => true end.

(** [v === true] *)
Definition strict_true (v : JsValue) : bool :=
  match v with JBool true => true | _ => false end.

(** [x > 0] on a finite number, numbers being exact rationals here. *)
Definition gt0 (q : Q) : bool := negb (Qle_bool q 0).

(** [!s] on a string: the empty string is the only falsy one. *)
Definition falsy (s : string) : bool := s =? "".

(** Truthiness of [T | null] for an object or non-empty string [T]. *)
Definition truthy {A} (o : option A) : bool :=
  match o with Some _ => true | None => false end.

Module CopilotClient.

(** *** Data model *)

Inductive Role := user | assistant.

(** [interface Message]; [isStreaming] is optional. *)
Record Message := mkMessage {
  id : string;
  role : Role;
  content : string;
  timestamp : Z;
  isStreaming : option bool;
}.

(** Message objects are shared between the [messages] array, the listener's
    [currentAssistantMessage] and every array handed to [onUpdate]; they live
    in a store and are named by their allocation index. *)
Abbreviation loc := nat.

(** The vendor SDK's [ModelInfo], restricted to the fields read here.
    [is_premium] is read off-type through [billing as any]. *)
Record Billing := mkBilling {
  multiplier : option Q;
  is_premium : JsValue;
}.

Record ModelInfo := mkModel {
  model_id : string;
  billing : option Billing;
}.

(** [isModelPremium] *)
Definition isModelPremium (model : ModelInfo) : bool :=
  match billing model with
  | Some b =>
      if is_defined (is_premium b) then strict_true (is_premium b)
      else gt0 (default 0%Q (multiplier b))
  | None => gt0 0%Q
  end.

(** *** Events and the environment *)

(** [SessionEvent], by [event.type]; [deltaContent] is [None] when
    [event.data?.deltaContent] is undefined. *)
Inductive SessionEvent :=
| assistant_message_delta (deltaContent : option string)
| session_idle
| other_event (type : string).

(** What [randomUUID()] and [new Date()] answer when a piece of code runs. *)
Record Ambient := mkAmbient {
  randomUUID : string;
  now : Z;
}.

(** *** State of one chat session

    [currentSessionId] is the module-level variable; the other fields are
    what the closures of one [createChatSession] / [resumeChatSession] call
    capture: [chatIsLoading] is the [isLoading] of [createChatSession],
    [isLoading] the one of [setupSessionEventListeners].  [updates] records
    the calls of [onUpdate], oldest first: each holds the copied array (of
    references) and the loading flag. *)
Record State := mkState {
  currentSessionId : option string;
  sessionId : string;
  heap : list Message;
  messages : list loc;
  chatIsLoading : bool;
  isLoading : bool;
  currentAssistantMessage : option loc;
  lastDeltaContent : string;
  idleProcessed : bool;
  updates : list (list loc * bool);
}.

(** State right after [createChatSession] / [resumeChatSession] return,
    [sid] being the correlation identifier minted for it. *)
Definition newSession (sid : string) : State :=
  mkState (Some sid) sid [] [] false false None "" false [].

(** [currentSessionId !== sessionId] is false *)
Definition active (st : State) : bool :=
  match currentSessionId st with
  | Some c => c =? sessionId st
  | None => false
  end.

(** [onUpdate([...messages], flag)] *)
Definition onUpdate (flag : bool) (st : State) : State :=
  mkState (currentSessionId st) (sessionId st) (heap st) (messages st)
    (chatIsLoading st) (isLoading st) (currentAssistantMessage st)
    (lastDeltaContent st) (idleProcessed st)
    (updates st ++ [(messages st, flag)]).

(** [const m = {...}; messages.push(m)]: the new object's reference. *)
Definition push (m : Message) (st : State) : loc * State :=
  (length (heap st),
   mkState (currentSessionId st) (sessionId st) (heap st ++ [m])
     (messages st ++ [length (heap st)])
     (chatIsLoading st) (isLoading st) (currentAssistantMessage st)
     (lastDeltaContent st) (idleProcessed st) (updates st)).

(** In-place update of the object at [l]. *)
Definition mutate (l : loc) (f : Message -> Message) (st : State) : State :=
  mkState (currentSessionId st) (sessionId st) (alter f l (heap st))
    (messages st) (chatIsLoading st) (isLoading st)
    (currentAssistantMessage st) (lastDeltaContent st) (idleProcessed st)
    (updates st).

Definition append_content (d : string) (m : Message) : Message :=
  mkMessage (id m) (role m) (content m ++ d) (timestamp m) (isStreaming m).

Definition clear_streaming (m : Message) : Message :=
  mkMessage (id m) (role m) (content m) (timestamp m) (Some false).

(** The delta branch past its two guards. *)
Definition accept_delta (a : Ambient) (deltaContent : string) (st : State)
  : State :=
  let st1 :=
    mkState (currentSessionId st) (sessionId st) (heap st) (messages st)
      (chatIsLoading st) (isLoading st) (currentAssistantMessage st)
      deltaContent (idleProcessed st) (updates st) in
  let '(l, st2) :=
    match currentAssistantMessage st1 with
    | Some l => (l, st1)
    | None =>
        let '(l, s) :=
          push (mkMessage (randomUUID a) assistant "" (now a) (Some true)) st1 in
        (l, mkState (currentSessionId s) (sessionId s) (heap s) (messages s)
              (chatIsLoading s) (isLoading s) (Some l)
              (lastDeltaContent s) (idleProcessed s) (updates s))
    end in
  let st3 := mutate l (append_content deltaContent) st2 in
  onUpdate (isLoading st3) st3.

(** The idle branch past its latch. *)
Definition accept_idle (st : State) : State :=
  let st1 :=
    match currentAssistantMessage st with
    | Some l => mutate l clear_streaming st
    | None => st
    end in
  let st2 :=
    mkState (currentSessionId st1) (sessionId st1) (heap st1) (messages st1)
      (chatIsLoading st1) false None "" true (updates st1) in
  onUpdate (isLoading st2) st2.

(** The callback given to [session.on] by [setupSessionEventListeners]. *)
Definition listener (a : Ambient) (event : SessionEvent) (st : State)
  : State :=
  if negb (active st) then st else
  match event with
  | assistant_message_delta dc =>
      let deltaContent := default "" dc in
      if falsy deltaContent then st
      else if (deltaContent =? lastDeltaContent st)
              && truthy (currentAssistantMessage st)
      then st
      else accept_delta a deltaContent st
  | session_idle =>
      if idleProcessed st then st else accept_idle st
  | other_event _ => st
  end.

(** [resetState] *)
Definition resetState (st : State) : State :=
  mkState (currentSessionId st) (sessionId st) (heap st) (messages st)
    (chatIsLoading st) true None "" false (updates st).

(** [sendMessage] up to its [await]. *)
Definition sendMessage_begin (a : Ambient) (prompt : string) (st : State)
  : State :=
  let userMessage := mkMessage (randomUUID a) user prompt (now a) None in
  let '(_, st1) := push userMessage st in
  let st2 :=
    mkState (currentSessionId st1) (sessionId st1) (heap st1) (messages st1)
      true (isLoading st1) (currentAssistantMessage st1)
      (lastDeltaContent st1) (idleProcessed st1) (updates st1) in
  let st3 := resetState st2 in
  onUpdate (chatIsLoading st3) st3.

(** Events reaching the listener one after the other. *)
Definition deliver (evs : list (Ambient * SessionEvent)) (st : State)
  : State :=
  fold_left (fun s e => listener (fst e) (snd e) s) evs st.

(** What [session.sendAndWait] does while [sendMessage] awaits it: events
    reach the listener, then the promise resolves ([None]) or rejects. *)
Record VendorCall := mkVendorCall {
  delivered : list (Ambient * SessionEvent);
  rejection : option string;
}.

(** [sendMessage]: the state afterwards, and the failure thrown if any. *)
Definition sendMessage (a : Ambient) (prompt : string) (v : VendorCall)
  (st : State) : State * option string :=
  (deliver (delivered v) (sendMessage_begin a prompt st), rejection v).

(** What can happen to one session, in order of occurrence. *)
Inductive Action :=
| Send (a : Ambient) (prompt : string)
| Event (a : Ambient) (event : SessionEvent)
| Rebind (current : option string).

Definition step (st : State) (act : Action) : State :=
  match act with
  | Send a prompt => sendMessage_begin a prompt st
  | Event a event => listener a event st
  | Rebind c =>
      mkState c (sessionId st) (heap st) (messages st) (chatIsLoading st)
        (isLoading st) (currentAssistantMessage st) (lastDeltaContent st)
        (idleProcessed st) (updates st)
  end.

Definition run (acts : list Action) (st : State) : State :=
  fold_left step acts st.

(** *** Observations *)

(** The objects of the [messages] array, read through the store. *)
Definition view (st : State) : list Message :=
  omap (fun l => heap st !! l) (messages st).

(** The in-progress assistant message, if any. *)
Definition inProgress (st : State) : option Message :=
  l ← currentAssistantMessage st; heap st !! l.

Definition streaming (m : Message) : bool :=
  match role m, isStreaming m with
  | assistant, Some true => true
  | _, _ => false
  end.

Definition is_user (m : Message) : bool :=
  match role m with user => true | assistant => false end.

End CopilotClient.

Module CopilotProbe.

(** *** The host the probe runs on *)

(** What a rejected [execAsync] promise carries, as far as
    [error instanceof Error] and [error.message] tell. *)
Inductive Thrown :=
| ErrorInstance (message : string)
| NotAnError.

Inductive ExecResult :=
| Resolved (stdout stderr : string)
| Rejected (error : Thrown).

(** The file system, the process environment and the subprocess runner.
    [homedir] is what [os.homedir()] answers, at load time and later alike;
    [join] is Node's [path.join], which never answers the empty string (it
    answers a dot instead); [exec command PATH] is [execAsync] run with
    [PATH] in its environment. *)
Record Host := mkHost {
  existsSync : string -> bool;
  homedir : string;
  join : list string -> string;
  join_nonempty : forall segments, join segments <> "";
  env_PATH : option string;
  exec : string -> string -> ExecResult;
}.

(** What a run does to the host, in order. *)
Inductive Effect :=
| Stat (path : string)
| Spawn (command PATH : string).

Definition is_spawn (e : Effect) : bool :=
  match e with Spawn _ _ => true | Stat _ => false end.

(** Computations that read the host and log their effects. *)
Definition Probe (A : Type) : Type := Host -> A * list Effect.

Definition pure {A} (a : A) : Probe A := fun _ => (a, []).

Definition bind {A B} (m : Probe A) (k : A -> Probe B) : Probe B :=
  fun h => let '(a, t1) := m h in let '(b, t2) := k a h in (b, (t1 ++ t2)%list).

Notation "x <~ m ;; k" := (bind m (fun x => k))
  (at level 100, m at next level, right associativity).

Definition ask : Probe Host := fun h => (h, []).

Definition existsSyncM (p : string) : Probe bool :=
  fun h => (existsSync h p, [Stat p]).

Definition result {A} (m : Probe A) (h : Host) : A := fst (m h).
Definition effects {A} (m : Probe A) (h : Host) : list Effect := snd (m h).

(** *** Strings *)

Definition dquote : string := String (ascii_of_nat 34) EmptyString.

Definition bytes (l : list nat) : string :=
  string_of_list_ascii (map ascii_of_nat l).

(** [hay.includes(needle)] *)
Fixpoint includes (needle hay : string) : bool :=
  String.prefix needle hay ||
  match hay with
  | EmptyString => false
  | String _ rest => includes needle rest
  end.

(** The code points [String.prototype.trim] removes (WhiteSpace and
    LineTerminator), in UTF-8: TAB LF VT FF CR SP, U+00A0, U+1680,
    U+2000 to U+200A, U+2028, U+2029, U+202F, U+205F, U+3000, U+FEFF. *)
Definition whiteSpace : list (list ascii) :=
  map (map ascii_of_nat)
    ([[9]; [10]; [11]; [12]; [13]; [32]; [194; 160]; [225; 154; 128]]
     ++ map (fun k => [226; 128; 128 + k]) (seq 0 11)
     ++ [[226; 128; 168]; [226; 128; 169]; [226; 128; 175];
         [226; 129; 159]; [227; 128; 128]; [239; 187; 191]])%list.

Fixpoint strip_prefix (p l : list ascii) : option (list ascii) :=
  match p, l with
  | [], _ => Some l
  | a :: p', b :: l' => if Ascii.eqb a b then strip_prefix p' l' else None
  | _ :: _, [] => None
  end.

Fixpoint strip_any (ps : list (list ascii)) (l : list ascii)
  : option (list ascii) :=
  match ps with
  | [] => None
  | p :: ps' =>
      match strip_prefix p l with
      | Some r => Some r
      | None => strip_any ps' l
      end
  end.

Fixpoint trim_left (ps : list (list ascii)) (fuel : nat) (l : list ascii)
  : list ascii :=
  match fuel with
  | O => l
  | S n =>
      match strip_any ps l with
      | Some r => trim_left ps n r
      | None => l
      end
  end.

(** [s.trim()] *)
Definition trim (s : string) : string :=
  let l := list_ascii_of_string s in
  let l1 := trim_left whiteSpace (length l) l in
  let r := rev l1 in
  string_of_list_ascii (rev (trim_left (map (@rev ascii) whiteSpace) (length r) r)).

(** *** The probe *)

(** [COPILOT_PATHS] *)
Definition COPILOT_PATHS (h : Host) : list string :=
  [ "/opt/homebrew/bin/copilot";
    "/usr/local/bin/copilot";
    join h [homedir h; ".local/bin/copilot"] ].

(** [GH_PATHS] *)
Definition GH_PATHS (h : Host) : list string :=
  [ "/opt/homebrew/bin/gh";
    "/usr/local/bin/gh";
    join h [homedir h; ".local/bin/gh"] ].

(** [findExecutable] *)
Fixpoint findExecutable (paths : list string) : Probe (option string) :=
  match paths with
  | [] => pure None
  | p :: rest =>
      found <~ existsSyncM p ;;
      if found then pure (Some p) else findExecutable rest
  end.

(** [getCopilotPath] *)
Definition getCopilotPath : Probe (option string) :=
  h <~ ask ;; findExecutable (COPILOT_PATHS h).

(** [getGhPath] *)
Definition getGhPath : Probe (option string) :=
  h <~ ask ;; findExecutable (GH_PATHS h).

(** [getExtendedPath] *)
Definition getExtendedPath (h : Host) : string :=
  String.concat ":"
    [ "/opt/homebrew/bin"; "/usr/local/bin";
      join h [homedir h; ".local/bin"];
      match env_PATH h with
      | Some p => if falsy p then "" else p
      | None => ""
      end ].

(** [execWithPath] *)
Definition execWithPath (command : string) : Probe ExecResult :=
  fun h =>
    let PATH := getExtendedPath h in
    (exec h command PATH, [Spawn command PATH]).

Record InstallStatus := mkInstallStatus {
  installed : bool;
  version : option string;
  install_error : option string;
}.

Record LoginStatus := mkLoginStatus {
  loggedIn : bool;
  login_error : option string;
}.

(** [interface CopilotStatus] *)
Record CopilotStatus := mkCopilotStatus {
  isInstalled : bool;
  isLoggedIn : bool;
  status_version : option string;
  status_error : option string;
}.

(** [error instanceof Error ? error.message : fallback] *)
Definition message_or (fallback : string) (e : Thrown) : string :=
  match e with
  | ErrorInstance m => m
  | NotAnError => fallback
  end.

(** What [isCopilotCliInstalled] returns when [!copilotPath]. *)
Definition cli_not_found : InstallStatus :=
  mkInstallStatus false None (Some "Copilot CLI not found in common locations").

(** [isCopilotCliInstalled] *)
Definition isCopilotCliInstalled : Probe InstallStatus :=
  copilotPath <~ getCopilotPath ;;
  match copilotPath with
  | None => pure cli_not_found
  | Some p =>
      if falsy p then pure cli_not_found
      else
        r <~ execWithPath (dquote ++ p ++ dquote ++ " --version") ;;
        match r with
        | Resolved stdout _ => pure (mkInstallStatus true (Some (trim stdout)) None)
        | Rejected e =>
            pure (mkInstallStatus false None (Some (message_or "Unknown error" e)))
        end
  end.

(** The mis-decoded check mark the source looks for (bytes of its literal). *)
Definition check_mark : string := bytes [195; 162; 197; 147; 226; 128; 156].

(** The branch of [isCopilotLoggedIn] taken when [!ghPath]. *)
Definition gh_fallback : Probe LoginStatus :=
  h <~ ask ;;
  let copilotConfigPath := join h [homedir h; ".copilot"; "config.json"] in
  present <~ existsSyncM copilotConfigPath ;;
  if present then pure (mkLoginStatus true None)
  else pure (mkLoginStatus false (Some "GitHub CLI (gh) not found")).

(** [isCopilotLoggedIn] *)
Definition isCopilotLoggedIn : Probe LoginStatus :=
  ghPath <~ getGhPath ;;
  match ghPath with
  | None => gh_fallback
  | Some p =>
      if falsy p then gh_fallback
      else
        r <~ execWithPath (dquote ++ p ++ dquote ++ " auth status") ;;
        match r with
        | Resolved stdout stderr =>
            let output := stdout ++ stderr in
            if includes "Logged in" output || includes check_mark output
            then pure (mkLoginStatus true None)
            else pure (mkLoginStatus true None)
        | Rejected e =>
            pure (mkLoginStatus false (Some (message_or "Not logged in to GitHub" e)))
        end
  end.

(** [getCopilotStatus] *)
Definition getCopilotStatus : Probe CopilotStatus :=
  installStatus <~ isCopilotCliInstalled ;;
  if negb (installed installStatus) then
    pure (mkCopilotStatus false false None (install_error installStatus))
  else
    loginStatus <~ isCopilotLoggedIn ;;
    pure (mkCopilotStatus true (loggedIn loginStatus)
            (version installStatus) (login_error loginStatus)).

End CopilotProbe.

Module TotoChat.
Import CopilotClient.

(** [availableModels.filter((m) => !isModelPremium(m))] in [ChatView] *)
Definition freeModels (availableModels : list ModelInfo) : list ModelInfo :=
  List.filter (fun m => negb (isModelPremium m)) availableModels.

(** [availableModels.filter((m) => isModelPremium(m))] in [ChatView] *)
Definition premiumModels (availableModels : list ModelInfo) : list ModelInfo :=
  List.filter (fun m => isModelPremium m) availableModels.

End TotoChat.

(** ** Vocabulary of the statements *)

Module Spec.
Import CopilotClient.

(** A model whose billing has multiplier [q] and no [is_premium] property. *)
Definition unflagged (i : string) (q : Q) : ModelInfo :=
  mkModel i (Some (mkBilling (Some q) JUndefined)).

(** The three models of the specification's example, named. *)
Definition example_models : list ModelInfo :=
  [unflagged "m1" 1; unflagged "m2" 1; unflagged "m3" 10].

(** A model whose billing carries [is_premium: v]. *)
Definition flagged (i : string) (q : option Q) (v : JsValue) : ModelInfo :=
  mkModel i (Some (mkBilling q v)).

(** A delta event with its ambient answers. *)
Definition delta (e : Ambient * option string) : Ambient * SessionEvent :=
  (fst e, assistant_message_delta (snd e)).

(** The text a response should accumulate, in the specification's words:
    empty deltas are ignored, an exact duplicate of the immediately
    preceding delta is ignored, everything else is appended. [prev] is the
    preceding delta. *)
Fixpoint accumulated_spec (prev : string) (ds : list (option string))
  : string :=
  match ds with
  | [] => ""
  | d :: rest =>
      let text := default "" d in
      if falsy text then accumulated_spec prev rest
      else if text =? prev then accumulated_spec prev rest
      else text ++ accumulated_spec text rest
  end.

(** Text of the in-progress assistant message. *)
Definition accumulated (st : State) : option string :=
  content <$> inProgress st.

(** How many [onUpdate] calls the idle events of a run make. *)
Fixpoint idle_emissions (evs : list (Ambient * SessionEvent)) (st : State)
  : nat :=
  match evs with
  | [] => 0
  | (a, ev) :: rest =>
      match ev with
      | session_idle => length (updates (listener a ev st)) - length (updates st)
      | _ => 0
      end + idle_emissions rest (listener a ev st)
  end.

(** Number of user messages among the session's message objects. *)
Definition user_count (st : State) : nat :=
  length (List.filter is_user (heap st)).

(** The streaming-flagged assistant messages of the list. *)
Definition streaming_messages (st : State) : list Message :=
  List.filter streaming (view st).

(** From [n] on: the message objects below [n] are no longer referenced by
    the listener. *)
Definition settled (n : nat) (st : State) : Prop :=
  n <= length (heap st) /\
  forall l, currentAssistantMessage st = Some l -> n <= l.

(** The first of [paths] that exists on [h]. *)
Definition first_existing (h : CopilotProbe.Host) (paths : list string)
  : option string :=
  List.find (CopilotProbe.existsSync h) paths.

(** The paths a search of [paths] looks at: up to the first that exists. *)
Fixpoint probed (h : CopilotProbe.Host) (paths : list string) : list string :=
  match paths with
  | [] => []
  | p :: rest =>
      p :: (if CopilotProbe.existsSync h p then [] else probed h rest)
  end.

(** [path.join] on segments that need no normalising. *)
Definition example_join (segments : list string) : string :=
  match String.concat "/" segments with
  | EmptyString => "."
  | String c s => String c s
  end.

(** A host for examples: [present] lists the files that exist, [run] is what
    running a command answers. *)
Definition example_host (present : list string)
  (run : string -> CopilotProbe.ExecResult) : CopilotProbe.Host :=
  CopilotProbe.mkHost (fun p => existsb (String.eqb p) present)
    "/Users/me" example_join
    (fun segments =>
       ltac:(unfold example_join;
             destruct (String.concat "/" segments); discriminate))
    (Some "/usr/bin") (fun c _ => run c).

(** Runs in which every [sendMessage] starts with no message in progress. *)
Fixpoint polite (acts : list Action) (st : State) : Prop :=
  match acts with
  | [] => True
  | act :: rest =>
      match act with
      | Send _ _ => currentAssistantMessage st = None
      | _ => True
      end /\ polite rest (step st act)
  end.

(** Every object is in the list once, in allocation order; only the object
    in progress is flagged as streaming. *)
Definition tidy (st : State) : Prop :=
  messages st = seq 0 (length (heap st)) /\
  (forall l, currentAssistantMessage st = Some l -> l < length (heap st)) /\
  (forall l m, heap st !! l = Some m -> streaming m = true ->
     currentAssistantMessage st = Some l).

End Spec.

(** ** The rest of the client module: models, the shared client, sessions *)

Module Models.
Import CopilotClient.

(** A [ModelInfo] with the other fields the module and the view read:
    [name], [capabilities.supports.vision] and [policy?.state]. *)
Record ModelEntry := mkEntry {
  info : ModelInfo;
  name : string;
  vision : bool;
  policy_state : option string;
}.

(** [model.policy?.state === "disabled"] *)
Definition disabled (model : ModelEntry) : bool :=
  match policy_state model with
  | Some s => s =? "disabled"
  | None => false
  end.

(** [model.billing?.multiplier ?? 1] *)
Definition multiplier_or_1 (model : ModelEntry) : Q :=
  match billing (info model) with
  | Some b => default 1%Q (multiplier b)
  | None => 1%Q
  end.

(** The separator of [parts.join]: space, U+2022, space. *)
Definition bullet : string :=
  String " " (CopilotProbe.bytes [226; 128; 162] ++ " ").

(** The [parts] array of [getModelDescription]; [show] is JavaScript's
    conversion of a number to a string in a template literal. *)
Definition descriptionParts (show : Q -> string) (model : ModelEntry)
  : list string :=
  ((if vision model then ["Vision"] else [])
   ++ [ if Qeq_bool (multiplier_or_1 model) 1 then "Free tier"
        else (show (multiplier_or_1 model) ++ "x premium")%string ]
   ++ (if disabled model then ["Disabled"] else []))%list.

(** [getModelDescription] *)
Definition getModelDescription (show : Q -> string) (model : ModelEntry)
  : string :=
  String.concat bullet (descriptionParts show model).

End Models.

Module Lifecycle.
Import CopilotClient.

(** The module-level variables, with [process.env.PATH]; a client object is
    named by the order of its construction. *)
Record Globals := mkGlobals {
  globalClient : option nat;
  clientStarted : bool;
  currentSessionId : option string;
  PATH : option string;
}.

(** What the module asks of the outside, in order. *)
Inductive Call :=
| Mkdir (dir : string)
| ConsoleError
| NewClient (ref : nat) (cwd : string)
| Start (ref : nat)
| Stop (ref : nat)
| CreateSession (ref : nat) (model : string)
| ResumeSession (ref : nat) (sessionId : string).

Definition is_new (c : Call) : bool :=
  match c with NewClient _ _ => true | _ => false end.

Definition is_start (c : Call) : bool :=
  match c with Start _ => true | _ => false end.

(** [getExtendedPath] of the client module, on the current [PATH]. *)
Definition getExtendedPath (h : CopilotProbe.Host) (path : option string)
  : string :=
  String.concat ":"
    [ "/opt/homebrew/bin"; "/usr/local/bin";
      CopilotProbe.join h [CopilotProbe.homedir h; ".local/bin"];
      match path with
      | Some p => if falsy p then "" else p
      | None => ""
      end ].

(** Where [getClient] stands when it yields: returned, or awaiting
    [start()] of the client it read before the [await]. *)
Inductive Progress :=
| Returned (client : option nat)
| AwaitingStart (client : nat).

(** [getClient] up to its [await] (or to its return when the client is
    already started).  [fresh] names the object [new CopilotClient] would
    make, [mkdir_throws] says whether [mkdirSync] throws. *)
Definition getClient_enter (h : CopilotProbe.Host) (fresh : nat)
  (mkdir_throws : bool) (g : Globals) : Globals * list Call * Progress :=
  let '(g1, calls) :=
    match globalClient g with
    | Some _ => (g, [])
    | None =>
        let sessionDir :=
          CopilotProbe.join h [CopilotProbe.homedir h; ".raycast-copilot-session"] in
        (mkGlobals (Some fresh) (clientStarted g) (currentSessionId g)
           (Some (getExtendedPath h (PATH g))),
         ([Mkdir sessionDir] ++ (if mkdir_throws then [ConsoleError] else [])
          ++ [NewClient fresh sessionDir])%list)
    end in
  if clientStarted g1 then (g1, calls, Returned (globalClient g1))
  else
    match globalClient g1 with
    | Some c => (g1, (calls ++ [Start c])%list, AwaitingStart c)
    | None => (g1, calls, Returned None)
    end.

(** [getClient] after [start()] settled: [rejection] is [None] when it
    resolved.  The client returned is the variable as it is then. *)
Definition getClient_resume (rejection : option string) (g : Globals)
  : Globals * (option nat + string) :=
  match rejection with
  | Some e => (g, inr e)
  | None =>
      (mkGlobals (globalClient g) true (currentSessionId g) (PATH g),
       inl (globalClient g))
  end.

(** [getClient] with nothing else running while it awaits. *)
Definition getClient (h : CopilotProbe.Host) (fresh : nat)
  (mkdir_throws : bool) (start_rejection : option string) (g : Globals)
  : Globals * list Call * (option nat + string) :=
  let '(g1, calls, p) := getClient_enter h fresh mkdir_throws g in
  match p with
  | Returned c => (g1, calls, inl c)
  | AwaitingStart _ =>
      let '(g2, r) := getClient_resume start_rejection g1 in (g2, calls, r)
  end.

(** [stopClient], [stop_rejection] being how [stop()] settles. *)
Definition stopClient (stop_rejection : option string) (g : Globals)
  : Globals * list Call * option string :=
  match globalClient g with
  | None => (g, [], None)
  | Some c =>
      match stop_rejection with
      | Some e => (g, [Stop c], Some e)
      | None => (mkGlobals None false None (PATH g), [Stop c], None)
      end
  end.

(** How the vendor answers one [createChatSession] / [resumeChatSession]. *)
Record Vendor := mkVendor {
  fresh_client : nat;
  mkdir_throws : bool;
  start_rejection : option string;
  session_rejection : option string;
  sdkSessionId : string;
}.

(** What the caller gets: the session's state and what [getSessionId]
    answers, or the failure thrown. *)
Inductive Outcome :=
| Handle (st : State) (getSessionId : string)
| Thrown (message : string).

(** The two functions differ in the vendor call and in [getSessionId]. *)
Definition openSession (h : CopilotProbe.Host) (a : Ambient) (v : Vendor)
  (call : nat -> Call) (getSessionId : string) (g : Globals)
  : Globals * list Call * Outcome :=
  let '(g1, calls, r) :=
    getClient h (fresh_client v) (mkdir_throws v) (start_rejection v) g in
  match r with
  | inr e => (g1, calls, Thrown e)
  | inl client =>
      let sessionId := randomUUID a in
      let g2 :=
        mkGlobals (globalClient g1) (clientStarted g1) (Some sessionId)
          (PATH g1) in
      match client with
      | None => (g2, calls, Thrown "TypeError")
      | Some c =>
          match session_rejection v with
          | Some e => (g2, (calls ++ [call c])%list, Thrown e)
          | None =>
              (g2, (calls ++ [call c])%list,
               Handle (newSession sessionId) getSessionId)
          end
      end
  end.

(** [createChatSession] *)
Definition createChatSession (h : CopilotProbe.Host) (a : Ambient)
  (v : Vendor) (model : string) (g : Globals)
  : Globals * list Call * Outcome :=
  openSession h a v (fun c => CreateSession c model) (sdkSessionId v) g.

(** [resumeChatSession] *)
Definition resumeChatSession (h : CopilotProbe.Host) (a : Ambient)
  (v : Vendor) (sessionId : string) (g : Globals)
  : Globals * list Call * Outcome :=
  openSession h a v (fun c => ResumeSession c sessionId) sessionId g.

(** A session's state as its listener finds it under the globals [g]. *)
Definition under (g : Globals) (st : State) : State :=
  step st (Rebind (currentSessionId g)).

(** The module as loaded: no client, nothing started, no session. *)
Definition loaded (path : option string) : Globals :=
  mkGlobals None false None path.

End Lifecycle.

(** ** The chat view *)

Module ChatView.
Import CopilotClient Models.

(** The loop that builds [messagePairs]: a user message takes the assistant
    message right after it, if any, and the loop steps over it. *)
Fixpoint messagePairs (messages : list Message)
  : list (Message * option Message) :=
  match messages with
  | [] => []
  | msg :: rest =>
      match role msg with
      | user =>
          match rest with
          | nextMsg :: rest' =>
              match role nextMsg with
              | assistant => (msg, Some nextMsg) :: messagePairs rest'
              | user => (msg, None) :: messagePairs rest
              end
          | [] => [(msg, None)]
          end
      | assistant => messagePairs rest
      end
  end.

(** [hasMessages] *)
Definition hasMessages (messages : list Message) : bool :=
  Nat.ltb 0 (List.length (messagePairs messages)).

(** [latestMessageId] *)
Definition latestMessageId (messages : list Message) : option string :=
  match last (messagePairs messages) with
  | Some latest => Some (id (fst latest))
  | None => None
  end.

(** The markdown of a pair's detail pane. *)
Definition detailMarkdown (shown : Message * option Message) : string :=
  match snd shown with
  | Some a =>
      if falsy (content a)
      then (if match isStreaming a with Some true => true | _ => false end
            then "..." else "")
      else content a
  | None => "*Waiting for response...*"
  end.

(** [FALLBACK_MODELS] *)
Definition FALLBACK_MODELS : list ModelEntry :=
  [ mkEntry (mkModel "gpt-4o-mini" (Some (mkBilling (Some 1%Q) JUndefined)))
      "GPT-4o Mini" false None;
    mkEntry (mkModel "gpt-4.1" (Some (mkBilling (Some 10%Q) JUndefined)))
      "GPT-4.1" false None ].

Definition has_id (i : string) (m : ModelEntry) : bool :=
  model_id (info m) =? i.

(** The body of [loadModels]: [fetched] is what [fetchAvailableModels]
    resolved with ([None] when it rejected), [saved] what
    [LocalStorage.getItem] resolved with ([None] when it rejected, [Some None]
    for no item); the result is [availableModels] and [selectedModel]. *)
Definition loadModels (fetched : option (list ModelEntry))
  (saved : option (option string)) (selectedModel : string)
  : list ModelEntry * string :=
  match fetched, saved with
  | Some models, Some savedModel =>
      let enabledModels := List.filter (fun m => negb (disabled m)) models in
      let finalModels :=
        if Nat.ltb 0 (List.length enabledModels) then enabledModels
        else FALLBACK_MODELS in
      let honoured :=
        match savedModel with
        | Some s => negb (falsy s) && existsb (has_id s) finalModels
        | None => false
        end in
      (finalModels,
       if honoured then default "" savedModel
       else
         let freeModel :=
           List.find (fun m => negb (isModelPremium (info m))) finalModels in
         let defaultModel :=
           match freeModel with
           | Some m => Some m
           | None => head finalModels
           end in
         match defaultModel with
         | Some m => model_id (info m)
         | None => selectedModel
         end)
  | _, _ => (FALLBACK_MODELS, selectedModel)
  end.

(** [handleSendMessage]: nothing when there is no session or the trimmed
    message is empty; otherwise the search text is cleared and
    [session.sendMessage(message.trim())] is awaited, a failure going to a
    toast whose text is the failure's message when what was thrown is an
    [Error] ([thrown_is_error]) and a fixed text otherwise.  The result is
    the search text afterwards and, when the message was sent, the session
    afterwards with the toast's text. *)
Definition handleSendMessage (session : option State) (a : Ambient)
  (message : string) (v : VendorCall) (thrown_is_error : bool)
  (searchText : string) : string * option (State * option string) :=
  match session with
  | None => (searchText, None)
  | Some st =>
      if falsy (CopilotProbe.trim message) then (searchText, None)
      else
        let '(st', failure) := sendMessage a (CopilotProbe.trim message) v st in
        ("",
         Some (st',
               match failure with
               | Some message_of_error =>
                   Some (if thrown_is_error then message_of_error
                         else "Failed to send message")
               | None => None
               end))
  end.

End ChatView.

Module ChatSetup.
Import CopilotClient.




End ChatSetup.

(** ** Vocabulary of the further statements *)

Module Vocabulary.
Import CopilotClient.

(** What [getExtendedPath] puts in front of the search path. *)
Definition path_prefix (h : CopilotProbe.Host) : string :=
  "/opt/homebrew/bin:/usr/local/bin:"
  ++ CopilotProbe.join h [CopilotProbe.homedir h; ".local/bin"] ++ ":".

(** The session directory handed to the client. *)
Definition sessionDir (h : CopilotProbe.Host) : string :=
  CopilotProbe.join h [CopilotProbe.homedir h; ".raycast-copilot-session"].

(** The last [onUpdate] call agrees with the session's list and flag. *)
Definition in_sync (st : State) : Prop :=
  match last (updates st) with
  | Some (shown, flag) => shown = messages st /\ flag = isLoading st
  | None => messages st = [] /\ isLoading st = false
  end.

(** An assistant message holds text and carries a streaming flag; a user
    message carries none. *)
Definition well_formed (m : Message) : Prop :=
  match role m with
  | assistant => falsy (content m) = false /\ is_Some (isStreaming m)
  | user => isStreaming m = None
  end.

Definition is_assistant (m : Message) : bool :=
  match role m with assistant => true | user => false end.

(** A string made only of the white space that [trim] removes. *)
Definition blank (s : string) : Prop :=
  exists ws,
    Forall (fun w => In w CopilotProbe.whiteSpace) ws /\
    list_ascii_of_string s = concat ws.

End Vocabulary.

(** * Properties *)

Import CopilotClient TotoChat Spec.
Open Scope list_scope.

(** ** Model partition *)

Section ModelPartition.

Lemma gt0_iff (q : Q) : gt0 q = true <-> (0 < q)%Q.
Proof.
  unfold gt0. rewrite negb_true_iff.
  split.
  - intros H. apply Qnot_le_lt. intros Hle.
    apply Qle_bool_iff in Hle. congruence.
  - intros H. destruct (Qle_bool q 0) eqn:E; [|reflexivity].
    apply Qle_bool_iff in E. exfalso. exact (Qlt_not_le _ _ H E).
Qed.

Lemma isModelPremium_unflagged (i : string) (q : Q) :
  isModelPremium (unflagged i q) = gt0 q.
Proof. reflexivity. Qed.

Lemma isModelPremium_flagged (i : string) (q : option Q) (v : JsValue) :
  v <> JUndefined -> isModelPremium (flagged i q v) = strict_true v.
Proof. destruct v; intros H; try reflexivity. congruence. Qed.

(** C1, as stated, fails: with multipliers 1, 1 and 10 and no explicit flag,
    no model is classified free and all three are classified premium. *)
Lemma partition_1_1_10_all_premium :
  freeModels example_models = [] /\
  length (premiumModels example_models) = 3.
Proof. split; reflexivity. Qed.

(** C1 (amended): without an explicit flag a model is premium exactly when
    its multiplier is positive, a missing multiplier or billing counting as
    0; so multipliers 1, 1, 10 give no free model and three premium ones,
    while 0, 0, 10 give two free and one premium.  With an explicit
    [is_premium] the classification is [is_premium === true], whatever the
    multiplier. *)
Theorem isModelPremium_partition
  (i1 i2 i3 : string) (q : Q) (m m' : option Q) (v : JsValue) :
  v <> JUndefined ->
  (isModelPremium (unflagged i1 q) = true <-> (0 < q)%Q) /\
  isModelPremium (mkModel i1 None) = false /\
  isModelPremium (flagged i1 None JUndefined) = false /\
  freeModels [unflagged i1 1; unflagged i2 1; unflagged i3 10] = [] /\
  premiumModels [unflagged i1 1; unflagged i2 1; unflagged i3 10]
    = [unflagged i1 1; unflagged i2 1; unflagged i3 10] /\
  freeModels [unflagged i1 0; unflagged i2 0; unflagged i3 10]
    = [unflagged i1 0; unflagged i2 0] /\
  premiumModels [unflagged i1 0; unflagged i2 0; unflagged i3 10]
    = [unflagged i3 10] /\
  isModelPremium (flagged i1 m v) = strict_true v /\
  isModelPremium (flagged i1 m v) = isModelPremium (flagged i2 m' v).
Proof.
  intros Hv. repeat split; try reflexivity.
  - apply gt0_iff.
  - apply gt0_iff.
  - now apply isModelPremium_flagged.
  - now rewrite !isModelPremium_flagged.
Qed.

Lemma isModelPremium_partition_witness :
  JBool false <> JUndefined /\
  isModelPremium (flagged "m" (Some 10%Q) (JBool false)) = false /\
  isModelPremium (flagged "m" (Some 0%Q) (JBool true)) = true.
Proof.
  split; [discriminate|]. split.
  - apply (isModelPremium_partition "m" "m" "m" 0 (Some 10%Q) None (JBool false)).
    discriminate.
  - apply (isModelPremium_partition "m" "m" "m" 0 (Some 0%Q) None (JBool true)).
    discriminate.
Defined.

End ModelPartition.

(** ** The event listener *)

Section Listener.

Implicit Types (st : State) (a : Ambient) (d : string).

Lemma falsy_iff d : falsy d = true <-> d = "".
Proof. apply String.eqb_eq. Qed.

Lemma falsy_false d : d <> "" -> falsy d = false.
Proof. intros H. now apply String.eqb_neq. Qed.

Lemma falsy_app d s : falsy d = false -> falsy (d ++ s)%string = false.
Proof. destruct d; [discriminate | reflexivity]. Qed.

Lemma active_iff st :
  active st = true <-> currentSessionId st = Some (sessionId st).
Proof.
  unfold active. destruct (currentSessionId st) as [c|].
  - rewrite String.eqb_eq. split; congruence.
  - split; discriminate.
Qed.

Lemma stale_iff st :
  active st = false <-> currentSessionId st <> Some (sessionId st).
Proof.
  rewrite <- active_iff. destruct (active st); split; congruence.
Qed.

Lemma listener_stale st a ev : active st = false -> listener a ev st = st.
Proof. intros H. unfold listener. now rewrite H. Qed.

Lemma alter_last {A} (f : A -> A) (l : list A) (x : A) :
  alter f (length l) (l ++ [x]) = l ++ [f x].
Proof.
  replace (length l) with (length l + 0) by lia.
  now rewrite alter_app_r.
Qed.

(** Past the two early returns, the listener runs the delta branch. *)
Lemma listener_delta_guarded st a d :
  active st = true -> d <> "" ->
  listener a (assistant_message_delta (Some d)) st =
  if (d =? lastDeltaContent st) && truthy (currentAssistantMessage st)
  then st else accept_delta a d st.
Proof.
  intros Ha Hd. unfold listener. rewrite Ha. cbn.
  apply String.eqb_neq in Hd. now rewrite Hd.
Qed.

(** A delta that opens a response: the new message object, already holding
    the delta, is pushed and becomes the in-progress one. *)
Lemma listener_delta_new st a d :
  active st = true -> d <> "" -> currentAssistantMessage st = None ->
  listener a (assistant_message_delta (Some d)) st =
  mkState (currentSessionId st) (sessionId st)
    (heap st ++ [mkMessage (randomUUID a) assistant d (now a) (Some true)])
    (messages st ++ [length (heap st)]) (chatIsLoading st) (isLoading st)
    (Some (length (heap st))) d (idleProcessed st)
    (updates st ++ [(messages st ++ [length (heap st)], isLoading st)]).
Proof.
  intros Ha Hd Hc. rewrite (listener_delta_guarded st a d Ha Hd), Hc.
  cbn [truthy]. rewrite andb_false_r.
  unfold accept_delta. cbn. rewrite Hc. cbn.
  unfold mutate, onUpdate. cbn. now rewrite alter_last.
Qed.

(** A delta that continues a response: the in-progress object is extended in
    place. *)
Lemma listener_delta_more st a d l :
  active st = true -> d <> "" -> currentAssistantMessage st = Some l ->
  d <> lastDeltaContent st ->
  listener a (assistant_message_delta (Some d)) st =
  mkState (currentSessionId st) (sessionId st)
    (alter (append_content d) l (heap st))
    (messages st) (chatIsLoading st) (isLoading st)
    (Some l) d (idleProcessed st)
    (updates st ++ [(messages st, isLoading st)]).
Proof.
  intros Ha Hd Hc Hl. rewrite (listener_delta_guarded st a d Ha Hd).
  apply String.eqb_neq in Hl. rewrite Hl. cbn [andb].
  unfold accept_delta. cbn. now rewrite Hc.
Qed.

(** A delta equal to the one just processed, while a message is in progress. *)
Lemma listener_delta_repeat st a d l :
  currentAssistantMessage st = Some l -> d = lastDeltaContent st ->
  listener a (assistant_message_delta (Some d)) st = st.
Proof.
  intros Hc Hl. unfold listener.
  destruct (active st); [|reflexivity]. cbn.
  destruct (d =? ""); [reflexivity|].
  subst d. now rewrite String.eqb_refl, Hc.
Qed.

Lemma listener_delta_empty st a dc :
  default "" dc = "" -> listener a (assistant_message_delta dc) st = st.
Proof.
  intros H. unfold listener. destruct (active st); [|reflexivity].
  cbn [negb]. cbv zeta. now rewrite H.
Qed.

(** After any delta with text reached the active listener, that text is the
    remembered one and a message is in progress. *)
Lemma listener_delta_post st a d :
  active st = true -> d <> "" ->
  let st' := listener a (assistant_message_delta (Some d)) st in
  lastDeltaContent st' = d /\ truthy (currentAssistantMessage st') = true
  /\ active st' = true.
Proof.
  intros Ha Hd.
  destruct (currentAssistantMessage st) as [l|] eqn:Hc.
  - destruct (String.eqb_spec d (lastDeltaContent st)) as [E|E].
    + cbn zeta. rewrite (listener_delta_repeat st a d l Hc E).
      now rewrite Hc.
    + cbn zeta. rewrite (listener_delta_more st a d l Ha Hd Hc E).
      cbn. repeat split. exact Ha.
  - cbn zeta. rewrite (listener_delta_new st a d Ha Hd Hc).
    cbn. repeat split. exact Ha.
Qed.

(** The same delta twice in a row: the second delivery changes nothing. *)
Lemma listener_delta_twice st a1 a2 dc :
  listener a2 (assistant_message_delta dc)
    (listener a1 (assistant_message_delta dc) st)
  = listener a1 (assistant_message_delta dc) st.
Proof.
  destruct (active st) eqn:Ha.
  2:{ rewrite (listener_stale st a1 _ Ha). now apply listener_stale. }
  destruct (String.eqb_spec (default "" dc) "") as [E|E].
  { rewrite (listener_delta_empty st a1 dc E). now apply listener_delta_empty. }
  destruct dc as [d|]; [|now destruct E]. cbn in E.
  destruct (listener_delta_post st a1 d Ha E) as (Hl & Hc & _).
  destruct (currentAssistantMessage
              (listener a1 (assistant_message_delta (Some d)) st))
    as [l|] eqn:Hcur; [|discriminate].
  now apply (listener_delta_repeat _ a2 d l).
Qed.

Lemma deliver_app evs1 evs2 st :
  deliver (evs1 ++ evs2) st = deliver evs2 (deliver evs1 st).
Proof. unfold deliver. apply fold_left_app. Qed.

Lemma deliver_cons e evs st :
  deliver (e :: evs) st = deliver evs (listener (fst e) (snd e) st).
Proof. reflexivity. Qed.

Lemma append_assoc (s1 s2 s3 : string) :
  ((s1 ++ s2) ++ s3)%string = (s1 ++ (s2 ++ s3))%string.
Proof. induction s1 as [|c s1 IH]; cbn; [reflexivity | now rewrite IH]. Qed.

Lemma append_empty_r (s : string) : (s ++ "")%string = s.
Proof. induction s as [|c s IH]; cbn; [reflexivity | now rewrite IH]. Qed.

(** Deltas reaching a listener that already has a message in progress extend
    that very object by the text the specification describes. *)
Lemma deliver_deltas_more (ds : list (Ambient * option string)) :
  forall st l m,
  active st = true -> currentAssistantMessage st = Some l ->
  heap st !! l = Some m ->
  let st' := deliver (map delta ds) st in
  active st' = true /\ currentAssistantMessage st' = Some l /\
  exists m', heap st' !! l = Some m' /\
    content m' =
      (content m ++ accumulated_spec (lastDeltaContent st) (map snd ds))%string.
Proof.
  induction ds as [|[a dc] ds IH]; intros st l m Ha Hc Hm; cbn zeta.
  - cbn. repeat split; try assumption.
    exists m. now rewrite append_empty_r.
  - cbn [map]. rewrite deliver_cons. cbn [delta fst snd accumulated_spec].
    destruct (String.eqb_spec (default "" dc) "") as [E|E].
    { rewrite (listener_delta_empty st a dc E).
      unfold falsy. rewrite E. cbn [String.eqb].
      exact (IH st l m Ha Hc Hm). }
    destruct dc as [d|]; [|now destruct E]. cbn in E. cbn [from_option]. unfold Datatypes.id.
    rewrite (falsy_false d E).
    destruct (String.eqb_spec d (lastDeltaContent st)) as [El|El].
    { rewrite (listener_delta_repeat st a d l Hc El).
      exact (IH st l m Ha Hc Hm). }
    rewrite (listener_delta_more st a d l Ha E Hc El).
    set (st1 := mkState _ _ _ _ _ _ _ _ _ _).
    destruct (IH st1 l (append_content d m)) as (Ha' & Hc' & m' & Hm' & Hcont).
    + exact Ha.
    + reflexivity.
    + subst st1. cbn [heap]. now rewrite list_lookup_alter_eq, Hm.
    + repeat split; try assumption.
      exists m'. split; [assumption|].
      rewrite Hcont. subst st1. cbn [lastDeltaContent append_content content].
      now rewrite append_assoc.
Qed.

(** Deltas reaching a listener with no message in progress. *)
Lemma deliver_deltas_fresh (ds : list (Ambient * option string)) :
  forall st,
  active st = true -> currentAssistantMessage st = None ->
  accumulated (deliver (map delta ds) st) =
    let text := accumulated_spec "" (map snd ds) in
    if falsy text then None else Some text.
Proof.
  induction ds as [|[a dc] ds IH]; intros st Ha Hc; cbn zeta.
  - cbn. unfold accumulated, inProgress. now rewrite Hc.
  - cbn [map]. rewrite deliver_cons. cbn [delta fst snd accumulated_spec].
    destruct (String.eqb_spec (default "" dc) "") as [E|E].
    { rewrite (listener_delta_empty st a dc E).
      unfold falsy at 1. rewrite E. cbn [String.eqb].
      exact (IH st Ha Hc). }
    destruct dc as [d|]; [|now destruct E]. cbn in E. cbn [from_option]. unfold Datatypes.id.
    rewrite !(falsy_false d E).
    rewrite (listener_delta_new st a d Ha E Hc).
    set (st1 := mkState _ _ _ _ _ _ _ _ _ _).
    set (m := mkMessage (randomUUID a) assistant d (now a) (Some true)).
    destruct (deliver_deltas_more ds st1 (length (heap st)) m)
      as (_ & Hc' & m' & Hm' & Hcont).
    + exact Ha.
    + reflexivity.
    + subst st1. cbn [heap]. now rewrite lookup_app_r, Nat.sub_diag by lia.
    + rewrite (falsy_app d _ (falsy_false d E)).
      unfold accumulated, inProgress. rewrite Hc'. cbn.
      rewrite Hm'. cbn. now rewrite Hcont.
Qed.

End Listener.

Section Streaming.

Implicit Types (st : State) (a : Ambient) (d : string).

(** C2: consecutive identical deltas are accumulated once.  For deltas [ds]
    reaching the active listener at the start of a response, the in-progress
    message holds the text of the specification (empty deltas dropped, a
    repeat of the immediately preceding delta dropped); delivering a delta a
    second time in a row, anywhere in a run of events, leaves the same state
    as delivering it once; the deltas Hi, Hi, there give Hi there; an empty
    or missing [deltaContent] changes nothing and calls no callback. *)
Theorem duplicate_deltas_accumulated_once
  st (ds : list (Ambient * option string))
  (before after : list (Ambient * SessionEvent))
  (a1 a2 a3 : Ambient) (dc : option string) :
  active st = true -> currentAssistantMessage st = None ->
  accumulated (deliver (map delta ds) st) =
    (let text := accumulated_spec "" (map snd ds) in
     if falsy text then None else Some text) /\
  (forall s,
    deliver (before ++ [(a1, assistant_message_delta dc);
                        (a2, assistant_message_delta dc)] ++ after) s =
    deliver (before ++ [(a1, assistant_message_delta dc)] ++ after) s) /\
  accumulated
    (deliver (map delta [(a1, Some "Hi"); (a2, Some "Hi"); (a3, Some " there")])
       st) = Some "Hi there" /\
  listener a1 (assistant_message_delta None) st = st /\
  listener a1 (assistant_message_delta (Some "")) st = st.
Proof.
  intros Ha Hc. split; [|split; [|split; [|split]]].
  - now apply deliver_deltas_fresh.
  - intros s. rewrite !deliver_app. f_equal.
    rewrite !deliver_cons. cbn [fst snd]. cbn [deliver fold_left].
    apply listener_delta_twice.
  - now rewrite deliver_deltas_fresh.
  - now apply listener_delta_empty.
  - now apply listener_delta_empty.
Qed.

Lemma duplicate_deltas_accumulated_once_witness :
  let a := mkAmbient "id-1" 0 in
  let st := sendMessage_begin a "hello" (newSession "s") in
  active st = true /\ currentAssistantMessage st = None /\
  accumulated
    (deliver (map delta [(a, Some "Hi"); (a, Some "Hi"); (a, Some " there")])
       st) = Some "Hi there".
Proof.
  cbn zeta. split; [reflexivity|]. split; [reflexivity|].
  apply (duplicate_deltas_accumulated_once
           (sendMessage_begin (mkAmbient "id-1" 0) "hello" (newSession "s"))
           [] [] [] (mkAmbient "id-1" 0) (mkAmbient "id-1" 0)
           (mkAmbient "id-1" 0) None);
    reflexivity.
Defined.

End Streaming.

Section Latch.

Implicit Types (st : State) (a : Ambient) (d : string).

Lemma accept_delta_idleProcessed st a d :
  idleProcessed (accept_delta a d st) = idleProcessed st.
Proof.
  unfold accept_delta. cbn.
  now destruct (currentAssistantMessage st).
Qed.

Lemma accept_delta_active st a d :
  active (accept_delta a d st) = active st.
Proof.
  unfold accept_delta. cbn.
  now destruct (currentAssistantMessage st).
Qed.

Lemma accept_idle_active st : active (accept_idle st) = active st.
Proof.
  unfold accept_idle. now destruct (currentAssistantMessage st).
Qed.

(** The listener is one of three things on a state. *)
Lemma listener_cases st a ev :
  listener a ev st = st \/
  (exists d, d <> "" /\ ev = assistant_message_delta (Some d) /\
     active st = true /\ listener a ev st = accept_delta a d st) \/
  (ev = session_idle /\ active st = true /\ idleProcessed st = false /\
     listener a ev st = accept_idle st).
Proof.
  unfold listener. destruct (active st); [|now left]. cbn [negb].
  destruct ev as [dc| |t]; [| |now left].
  - cbv zeta. destruct (String.eqb_spec (default "" dc) "") as [E|E].
    + left. unfold falsy. now rewrite E.
    + destruct dc as [d|]; [|now destruct E]. cbn in E |- *.
      rewrite (proj2 (String.eqb_neq d "") E).
      destruct ((d =? lastDeltaContent st) && truthy (currentAssistantMessage st));
        [now left|].
      right; left. exists d. repeat split; try assumption; reflexivity.
  - destruct (idleProcessed st); [now left|].
    right; right. repeat split; reflexivity.
Qed.

Lemma listener_active st a ev : active (listener a ev st) = active st.
Proof.
  destruct (listener_cases st a ev) as [H|[(d & _ & _ & _ & H)|(_ & _ & _ & H)]];
    rewrite H; auto using accept_delta_active, accept_idle_active.
Qed.

Lemma deliver_active evs st : active (deliver evs st) = active st.
Proof.
  revert st. induction evs as [|e evs IH]; intros st; [reflexivity|].
  rewrite deliver_cons, IH. apply listener_active.
Qed.

(** No event clears the latch. *)
Lemma listener_latch_kept st a ev :
  idleProcessed st = true -> idleProcessed (listener a ev st) = true.
Proof.
  intros H.
  destruct (listener_cases st a ev) as [E|[(d & _ & _ & _ & E)|(_ & _ & F & _)]].
  - now rewrite E.
  - now rewrite E, accept_delta_idleProcessed.
  - congruence.
Qed.

Lemma deliver_latch_kept evs st :
  idleProcessed st = true -> idleProcessed (deliver evs st) = true.
Proof.
  revert st. induction evs as [|e evs IH]; intros st H; [exact H|].
  rewrite deliver_cons. apply IH. now apply listener_latch_kept.
Qed.

(** With the latch set, an idle event changes nothing. *)
Lemma listener_idle_latched st a :
  idleProcessed st = true -> listener a session_idle st = st.
Proof.
  intros H. unfold listener. destruct (active st); [|reflexivity].
  cbn. now rewrite H.
Qed.

(** What a processed idle event does. *)
Lemma listener_idle_processed st a :
  active st = true -> idleProcessed st = false ->
  listener a session_idle st =
  mkState (currentSessionId st) (sessionId st)
    (match currentAssistantMessage st with
     | Some l => alter clear_streaming l (heap st)
     | None => heap st
     end)
    (messages st) (chatIsLoading st) false None "" true
    (updates st ++ [(messages st, false)]).
Proof.
  intros Ha Hi. unfold listener. rewrite Ha, Hi. cbn [negb].
  unfold accept_idle. now destruct (currentAssistantMessage st).
Qed.

Lemma listener_idle_twice st a1 a2 :
  listener a2 session_idle (listener a1 session_idle st)
  = listener a1 session_idle st.
Proof.
  destruct (active st) eqn:Ha.
  2:{ rewrite (listener_stale st a1 _ Ha). now apply listener_stale. }
  destruct (idleProcessed st) eqn:Hi.
  - rewrite (listener_idle_latched st a1 Hi). now apply listener_idle_latched.
  - apply listener_idle_latched.
    now rewrite (listener_idle_processed st a1 Ha Hi).
Qed.

Lemma idle_emissions_latched evs st :
  idleProcessed st = true -> idle_emissions evs st = 0.
Proof.
  revert st. induction evs as [|[a ev] evs IH]; intros st H; [reflexivity|].
  cbn [idle_emissions].
  rewrite (IH _ (listener_latch_kept st a ev H)).
  destruct ev; try reflexivity.
  rewrite (listener_idle_latched st a H). lia.
Qed.

Lemma idle_emissions_at_most_once evs st : idle_emissions evs st <= 1.
Proof.
  revert st. induction evs as [|[a ev] evs IH]; intros st; [cbn; lia|].
  cbn [idle_emissions]. specialize (IH (listener a ev st)).
  destruct ev as [dc| |t]; try lia.
  destruct (active st) eqn:Ha.
  2:{ rewrite (listener_stale st a _ Ha) in *. lia. }
  destruct (idleProcessed st) eqn:Hi.
  - rewrite (listener_idle_latched st a Hi) in *. lia.
  - rewrite idle_emissions_latched.
    + rewrite (listener_idle_processed st a Ha Hi). cbn [updates].
      rewrite length_app. cbn. lia.
    + now rewrite (listener_idle_processed st a Ha Hi).
Qed.

Lemma deliver_deltas_latch (ds : list (Ambient * option string)) st :
  idleProcessed (deliver (map delta ds) st) = idleProcessed st.
Proof.
  revert st. induction ds as [|[a dc] ds IH]; intros st; [reflexivity|].
  cbn [map]. rewrite deliver_cons, IH. cbn [delta fst snd].
  destruct (listener_cases st a (assistant_message_delta dc))
    as [E|[(d & _ & _ & _ & E)|(F & _)]].
  - now rewrite E.
  - now rewrite E, accept_delta_idleProcessed.
  - discriminate.
Qed.

(** C6: an event whose listener was registered under a correlation
    identifier other than the current one is dropped: the listener returns
    the state it was given, so the message list, the message objects, the
    in-progress message and the loading flag are untouched and [onUpdate] is
    not called; the same holds for any run of such events. *)
Theorem stale_event_dropped st a ev (evs : list (Ambient * SessionEvent)) :
  currentSessionId st <> Some (sessionId st) ->
  listener a ev st = st /\ deliver evs st = st.
Proof.
  intros H. apply stale_iff in H. split.
  - now apply listener_stale.
  - induction evs as [|e evs IH]; [reflexivity|].
    rewrite deliver_cons. now rewrite listener_stale.
Qed.

Lemma stale_event_dropped_witness :
  let a := mkAmbient "id-9" 9 in
  let st := step (sendMessage_begin a "hello" (newSession "old")) (Rebind (Some "new")) in
  currentSessionId st <> Some (sessionId st) /\
  listener a (assistant_message_delta (Some "late")) st = st /\
  listener a session_idle st = st.
Proof.
  cbn zeta. split; [discriminate|]. split.
  - apply (stale_event_dropped _ (mkAmbient "id-9" 9)
             (assistant_message_delta (Some "late")) []). discriminate.
  - apply (stale_event_dropped _ (mkAmbient "id-9" 9) session_idle []).
    discriminate.
Defined.

(** C5: the idle handling runs at most once per response.  A second idle
    right after the first changes nothing; over any run of events between
    two sends the idle events call [onUpdate] at most once; once the latch
    is set no event clears it and idle events are ignored; [sendMessage]
    clears it, and the next idle event, after whatever deltas, is processed:
    the in-progress message gets [isStreaming = false] and is otherwise
    unchanged, loading becomes false and the list is emitted with it. *)
Theorem idle_processed_once_per_response
  st a a1 a2 (evs : list (Ambient * SessionEvent))
  (ds : list (Ambient * option string)) (prompt : string) :
  active st = true ->
  listener a2 session_idle (listener a1 session_idle st)
    = listener a1 session_idle st /\
  idle_emissions evs st <= 1 /\
  (idleProcessed st = true ->
     idleProcessed (deliver evs st) = true /\
     listener a1 session_idle (deliver evs st) = deliver evs st) /\
  idleProcessed (sendMessage_begin a prompt st) = false /\
  (let st1 := deliver (map delta ds) (sendMessage_begin a prompt st) in
   let st2 := listener a1 session_idle st1 in
   idleProcessed st1 = false /\
   idleProcessed st2 = true /\ isLoading st2 = false /\
   currentAssistantMessage st2 = None /\
   messages st2 = messages st1 /\
   updates st2 = updates st1 ++ [(messages st1, false)] /\
   (forall l m, currentAssistantMessage st1 = Some l ->
      heap st1 !! l = Some m ->
      heap st2 !! l
      = Some (mkMessage (id m) (role m) (content m) (timestamp m)
                (Some false))) /\
   listener a2 session_idle st2 = st2).
Proof.
  intros Ha. split; [apply listener_idle_twice|].
  split; [apply idle_emissions_at_most_once|].
  split.
  { intros Hi. split; [now apply deliver_latch_kept|].
    apply listener_idle_latched. now apply deliver_latch_kept. }
  split; [reflexivity|].
  cbv zeta.
  set (st1 := deliver (map delta ds) (sendMessage_begin a prompt st)).
  assert (Hi1 : idleProcessed st1 = false).
  { subst st1. now rewrite deliver_deltas_latch. }
  assert (Ha1 : active st1 = true).
  { subst st1. now rewrite deliver_active. }
  rewrite (listener_idle_processed st1 a1 Ha1 Hi1). cbn.
  repeat split; try assumption; try reflexivity.
  - intros l m Hc Hm. rewrite Hc.
    now rewrite list_lookup_alter_eq, Hm.
  - now apply listener_idle_latched.
Qed.

Lemma idle_processed_once_per_response_witness :
  let a := mkAmbient "id-1" 1 in
  let st := newSession "s" in
  let st1 := deliver (map delta [(a, Some "Hi")]) (sendMessage_begin a "q" st) in
  let st2 := listener a session_idle st1 in
  active st = true /\
  heap st1 !! 1 = Some (mkMessage "id-1" assistant "Hi" 1 (Some true)) /\
  heap st2 !! 1 = Some (mkMessage "id-1" assistant "Hi" 1 (Some false)) /\
  updates st2 = updates st1 ++ [([0; 1], false)] /\
  listener a session_idle st2 = st2.
Proof.
  cbn zeta. split; [reflexivity|]. split; [reflexivity|].
  destruct (idle_processed_once_per_response (newSession "s")
              (mkAmbient "id-1" 1) (mkAmbient "id-1" 1) (mkAmbient "id-1" 1)
              [] [(mkAmbient "id-1" 1, Some "Hi")] "q" eq_refl)
    as (_ & _ & _ & _ & H).
  destruct H as (_ & _ & _ & _ & _ & Hu & Hflag & Hagain).
  split; [|split; [exact Hu | exact Hagain]].
  exact (Hflag 1 (mkMessage "id-1" assistant "Hi" 1 (Some true))
           eq_refl eq_refl).
Defined.

End Latch.

Section Sending.

Implicit Types (st : State) (a : Ambient) (d : string).

(** [sendMessage] up to its [await], spelled out. *)
Lemma sendMessage_begin_eq st a prompt :
  sendMessage_begin a prompt st =
  mkState (currentSessionId st) (sessionId st)
    (heap st ++ [mkMessage (randomUUID a) user prompt (now a) None])
    (messages st ++ [length (heap st)]) true true None "" false
    (updates st ++ [(messages st ++ [length (heap st)], true)]).
Proof. reflexivity. Qed.

Lemma sendMessage_begin_active st a prompt :
  active (sendMessage_begin a prompt st) = active st.
Proof. reflexivity. Qed.

Lemma accept_delta_eq st a d :
  accept_delta a d st =
  match currentAssistantMessage st with
  | Some l =>
      mkState (currentSessionId st) (sessionId st)
        (alter (append_content d) l (heap st))
        (messages st) (chatIsLoading st) (isLoading st)
        (Some l) d (idleProcessed st)
        (updates st ++ [(messages st, isLoading st)])
  | None =>
      mkState (currentSessionId st) (sessionId st)
        (heap st ++ [mkMessage (randomUUID a) assistant d (now a) (Some true)])
        (messages st ++ [length (heap st)]) (chatIsLoading st) (isLoading st)
        (Some (length (heap st))) d (idleProcessed st)
        (updates st ++ [(messages st ++ [length (heap st)], isLoading st)])
  end.
Proof.
  unfold accept_delta. cbn. destruct (currentAssistantMessage st); cbn.
  - reflexivity.
  - unfold mutate, onUpdate. cbn. now rewrite alter_last.
Qed.

Lemma accept_idle_eq st :
  accept_idle st =
  mkState (currentSessionId st) (sessionId st)
    (match currentAssistantMessage st with
     | Some l => alter clear_streaming l (heap st)
     | None => heap st
     end)
    (messages st) (chatIsLoading st) false None "" true
    (updates st ++ [(messages st, false)]).
Proof. unfold accept_idle. now destruct (currentAssistantMessage st). Qed.

Lemma filter_user_alter (f : Message -> Message) (l : nat) (h : list Message) :
  (forall m, is_user (f m) = is_user m) ->
  length (List.filter is_user (alter f l h)) = length (List.filter is_user h).
Proof.
  intros Hf. revert l. induction h as [|m h IH]; intros l; [reflexivity|].
  destruct l as [|l]; cbn.
  - rewrite Hf. now destruct (is_user m).
  - specialize (IH l). destruct (is_user m); cbn; now rewrite IH.
Qed.

(** One event: the objects below [n] stay as they are, the arrays only grow,
    and no user message appears. *)
Lemma listener_settled n st a ev :
  settled n st ->
  let st' := listener a ev st in
  settled n st' /\ take n (heap st') = take n (heap st) /\
  messages st `prefix_of` messages st' /\
  updates st `prefix_of` updates st' /\
  user_count st' = user_count st.
Proof.
  intros [Hn Hc]. cbv zeta.
  destruct (listener_cases st a ev) as [E|[(d & _ & _ & _ & E)|(_ & _ & _ & E)]];
    rewrite E; clear E.
  - repeat split; auto.
  - rewrite accept_delta_eq. unfold settled, user_count.
    destruct (currentAssistantMessage st) as [l|] eqn:Hl; cbn.
    + specialize (Hc l eq_refl). rewrite length_alter.
      repeat split; auto.
      * intros l' [= <-]. exact Hc.
      * now apply take_alter_ge.
      * now apply prefix_app_r.
      * now apply filter_user_alter.
    + rewrite length_app. cbn. repeat split.
      * lia.
      * intros l' [= <-]. exact Hn.
      * now apply take_app_le.
      * now apply prefix_app_r.
      * now apply prefix_app_r.
      * rewrite List.filter_app. cbn. rewrite length_app. cbn. lia.
  - rewrite accept_idle_eq. unfold settled, user_count. cbn.
    destruct (currentAssistantMessage st) as [l|] eqn:Hl.
    + specialize (Hc l eq_refl). rewrite length_alter.
      repeat split; auto.
      * intros l' [=].
      * now apply take_alter_ge.
      * now apply prefix_app_r.
      * now apply filter_user_alter.
    + repeat split; auto. now apply prefix_app_r.
Qed.

Lemma deliver_settled n evs :
  forall st, settled n st ->
  let st' := deliver evs st in
  settled n st' /\ take n (heap st') = take n (heap st) /\
  messages st `prefix_of` messages st' /\
  updates st `prefix_of` updates st' /\
  user_count st' = user_count st.
Proof.
  induction evs as [|[a ev] evs IH]; intros st Hs; cbv zeta.
  - cbn. split; [exact Hs|]. now repeat split.
  - rewrite deliver_cons. cbn [fst snd].
    destruct (listener_settled n st a ev Hs) as (Hs1 & Ht1 & Hm1 & Hu1 & Hc1).
    destruct (IH _ Hs1) as (Hs2 & Ht2 & Hm2 & Hu2 & Hc2).
    split; [exact Hs2|]. split; [congruence|].
    split; [etransitivity; eassumption|].
    split; [etransitivity; eassumption | congruence].
Qed.

Lemma sendMessage_begin_settled st a prompt :
  settled (length (heap (sendMessage_begin a prompt st)))
    (sendMessage_begin a prompt st).
Proof. split; [lia | discriminate]. Qed.

(** C7: [sendMessage] appends exactly one user message holding the prompt,
    sets loading, resets the streaming accumulator and calls the update
    callback with the new list, all before it awaits the vendor; whatever
    the vendor call then delivers and however it settles, that message
    object and those before it are unchanged, the list still starts with
    them, and the session holds exactly one more user message. *)
Theorem sendMessage_appends_user_message st a prompt (v : VendorCall) :
  let userMessage := mkMessage (randomUUID a) user prompt (now a) None in
  let st1 := sendMessage_begin a prompt st in
  let st2 := fst (sendMessage a prompt v st) in
  heap st1 = heap st ++ [userMessage] /\
  messages st1 = messages st ++ [length (heap st)] /\
  chatIsLoading st1 = true /\ isLoading st1 = true /\
  currentAssistantMessage st1 = None /\ lastDeltaContent st1 = "" /\
  idleProcessed st1 = false /\
  updates st1 = updates st ++ [(messages st1, true)] /\
  user_count st1 = S (user_count st) /\
  st2 = deliver (delivered v) st1 /\
  snd (sendMessage a prompt v st) = rejection v /\
  take (length (heap st1)) (heap st2) = heap st1 /\
  messages st1 `prefix_of` messages st2 /\
  updates st1 `prefix_of` updates st2 /\
  user_count st2 = S (user_count st).
Proof.
  cbv zeta.
  assert (Hu : user_count (sendMessage_begin a prompt st) = S (user_count st)).
  { unfold user_count. rewrite sendMessage_begin_eq. cbn [heap].
    rewrite List.filter_app, length_app. cbn. lia. }
  destruct (deliver_settled _ (delivered v) _
              (sendMessage_begin_settled st a prompt))
    as (_ & Ht & Hm & Hup & Hc).
  repeat split; try assumption.
  - unfold sendMessage. cbn [fst]. rewrite Ht. now rewrite firstn_all.
  - unfold sendMessage. cbn [fst]. congruence.
Qed.

Lemma step_settled n s (act : Action) :
  settled n s ->
  settled n (step s act) /\ take n (heap (step s act)) = take n (heap s).
Proof.
  intros Hs. destruct act as [a' p'|a' ev|c]; cbn [step].
  - rewrite sendMessage_begin_eq. destruct Hs as [Hn _].
    split; [split|]; cbn [heap currentAssistantMessage].
    + rewrite length_app. lia.
    + intros l [=].
    + now apply take_app_le.
  - destruct (listener_settled n s a' ev Hs) as (H1 & H2 & _). now split.
  - split; [exact Hs | reflexivity].
Qed.

Lemma run_settled n (acts : list Action) :
  forall s, settled n s ->
  settled n (run acts s) /\ take n (heap (run acts s)) = take n (heap s).
Proof.
  induction acts as [|act acts IH]; intros s Hs; [now split|].
  change (run (act :: acts) s) with (run acts (step s act)).
  destruct (step_settled n s act Hs) as [Hs1 Ht1].
  destruct (IH _ Hs1) as [Hs2 Ht2].
  split; [assumption | congruence].
Qed.

(** A send closes out what came before it: whatever happens afterwards to
    the session (events, further sends, the current identifier changing), the
    message objects that existed when [sendMessage] reached its [await] keep
    their content and flags. *)
Lemma send_closes_out_earlier_messages (acts : list Action) st a prompt :
  let st1 := sendMessage_begin a prompt st in
  take (length (heap st1)) (heap (run acts st1)) = heap st1.
Proof.
  cbv zeta.
  destruct (run_settled _ acts _ (sendMessage_begin_settled st a prompt))
    as [_ Ht].
  rewrite Ht. apply firstn_all.
Qed.

(** C3 (failing input): a second [sendMessage] while the first answer is
    still streaming leaves that answer flagged as streaming, and the next
    delta opens another flagged message: the list then holds two. *)
Theorem resend_while_streaming_leaves_two_flagged :
  let st :=
    run [ Send (mkAmbient "id-1" 1) "a";
          Event (mkAmbient "id-2" 2) (assistant_message_delta (Some "x"));
          Send (mkAmbient "id-3" 3) "b";
          Event (mkAmbient "id-4" 4) (assistant_message_delta (Some "y")) ]
      (newSession "s") in
  streaming_messages st =
    [ mkMessage "id-2" assistant "x" 2 (Some true);
      mkMessage "id-4" assistant "y" 4 (Some true) ] /\
  inProgress st = Some (mkMessage "id-4" assistant "y" 4 (Some true)).
Proof. split; reflexivity. Qed.

Lemma view_all_objects (pre h : list Message) :
  omap (fun l => (pre ++ h) !! l) (seq (length pre) (length h)) = h.
Proof.
  revert pre. induction h as [|x h IH]; intros pre; [reflexivity|].
  cbn [length seq omap list_omap].
  rewrite (lookup_app_r pre) by lia. rewrite Nat.sub_diag. cbn [lookup list_lookup].
  f_equal. specialize (IH (pre ++ [x])).
  rewrite <- app_assoc, length_app in IH. cbn in IH.
  now rewrite Nat.add_1_r in IH.
Qed.

Lemma tidy_view st : tidy st -> view st = heap st.
Proof.
  intros (Hm & _). unfold view. rewrite Hm.
  exact (view_all_objects [] (heap st)).
Qed.

Lemma filter_none (h : list Message) :
  (forall j y, h !! j = Some y -> streaming y = false) ->
  List.filter streaming h = [].
Proof.
  induction h as [|x h IH]; intros H; [reflexivity|]. cbn.
  rewrite (H 0 x eq_refl). apply IH. intros j y Hj. exact (H (S j) y Hj).
Qed.

Lemma filter_at_most_one (h : list Message) :
  (forall i j x y, h !! i = Some x -> h !! j = Some y ->
     streaming x = true -> streaming y = true -> i = j) ->
  length (List.filter streaming h) <= 1.
Proof.
  induction h as [|x h IH]; intros H; [cbn; lia|]. cbn.
  destruct (streaming x) eqn:Hx.
  - rewrite filter_none; [cbn; lia|].
    intros j y Hj. destruct (streaming y) eqn:Hy; [|reflexivity].
    discriminate (H 0 (S j) x y eq_refl Hj Hx Hy).
  - apply IH. intros i j a b Hi Hj Ha Hb.
    pose proof (H (S i) (S j) a b Hi Hj Ha Hb). lia.
Qed.

Lemma tidy_at_most_one_streaming st :
  tidy st -> length (streaming_messages st) <= 1.
Proof.
  intros Ht. unfold streaming_messages. rewrite (tidy_view st Ht).
  destruct Ht as (_ & _ & Hb). apply filter_at_most_one.
  intros i j x y Hi Hj Hx Hy.
  pose proof (Hb i x Hi Hx). pose proof (Hb j y Hj Hy). congruence.
Qed.

Lemma tidy_newSession (sid : string) : tidy (newSession sid).
Proof. repeat split; [intros l [=] | intros l m [=]]. Qed.

Lemma tidy_push st (m : Message) (c : option nat) (new : State) :
  tidy st -> currentAssistantMessage st = None ->
  heap new = heap st ++ [m] ->
  messages new = messages st ++ [length (heap st)] ->
  currentAssistantMessage new = c ->
  (streaming m = true -> c = Some (length (heap st))) ->
  (forall l, c = Some l -> l = length (heap st)) ->
  tidy new.
Proof.
  intros (Hm & Hc & Hb) Hnone Hh Hms Hcur Hflag Hwhere.
  unfold tidy. rewrite Hh, Hms, Hcur, length_app. cbn [length].
  split; [|split].
  - rewrite Hm, Nat.add_1_r, seq_S. reflexivity.
  - intros l E. rewrite (Hwhere l E). lia.
  - intros l x Hl Hx.
    destruct (Nat.lt_ge_cases l (length (heap st))) as [Hlt|Hge].
    + rewrite lookup_app_l in Hl by assumption.
      pose proof (Hb l x Hl Hx). congruence.
    + pose proof (lookup_lt_Some _ _ _ Hl) as Hlen.
      rewrite length_app in Hlen. cbn in Hlen.
      assert (l = length (heap st)) as -> by lia.
      rewrite lookup_app_r, Nat.sub_diag in Hl by lia.
      cbn in Hl. injection Hl as <-. now apply Hflag.
Qed.

Lemma tidy_alter st (f : Message -> Message) (l : nat) (c : option nat)
  (new : State) :
  tidy st -> currentAssistantMessage st = Some l ->
  heap new = alter f l (heap st) -> messages new = messages st ->
  currentAssistantMessage new = c ->
  (c = Some l \/ (c = None /\ forall m, streaming (f m) = false)) ->
  tidy new.
Proof.
  intros (Hm & Hc & Hb) Hcur Hh Hms Hnew Hcase.
  unfold tidy. rewrite Hh, Hms, Hnew, length_alter.
  split; [exact Hm|]. split.
  - intros l' E. destruct Hcase as [->|[-> _]]; [|discriminate].
    injection E as <-. now apply Hc.
  - intros l' x Hl Hx. destruct (decide (l = l')) as [<-|Hne].
    + destruct Hcase as [->|[_ Hf]]; [reflexivity|].
      rewrite list_lookup_alter_eq in Hl.
      destruct (heap st !! l) as [m0|]; [|discriminate].
      cbn in Hl. injection Hl as <-. rewrite Hf in Hx. discriminate.
    + rewrite list_lookup_alter_ne in Hl by assumption.
      pose proof (Hb l' x Hl Hx). congruence.
Qed.

Lemma streaming_append_content d (m : Message) :
  streaming (append_content d m) = streaming m.
Proof. reflexivity. Qed.

Lemma listener_tidy st a ev : tidy st -> tidy (listener a ev st).
Proof.
  intros Ht.
  destruct (listener_cases st a ev) as [E|[(d & _ & _ & _ & E)|(_ & _ & _ & E)]];
    rewrite E; clear E; [assumption| |].
  - rewrite accept_delta_eq.
    destruct (currentAssistantMessage st) as [l|] eqn:Hl.
    + eapply (tidy_alter st (append_content d) l (Some l));
        try eassumption; try reflexivity. now left.
    + eapply (tidy_push st _ (Some (length (heap st))));
        try eassumption; try reflexivity.
      now intros l [= <-].
  - rewrite accept_idle_eq.
    destruct (currentAssistantMessage st) as [l|] eqn:Hl.
    + eapply (tidy_alter st clear_streaming l None);
        try eassumption; try reflexivity.
      right. split; [reflexivity|]. intros m. unfold streaming. cbn.
      now destruct (role m).
    + destruct Ht as (Hm & Hc & Hb). split; [exact Hm|]. split.
      * intros l [=].
      * intros l m Hlk Hs. cbn in Hlk. pose proof (Hb l m Hlk Hs). congruence.
Qed.

Lemma run_tidy (acts : list Action) :
  forall st, tidy st -> polite acts st -> tidy (run acts st).
Proof.
  induction acts as [|act acts IH]; intros st Ht Hp; [exact Ht|].
  change (run (act :: acts) st) with (run acts (step st act)).
  destruct Hp as [Hnow Hrest]. apply IH; [|exact Hrest].
  destruct act as [a p|a ev|c]; cbn [step].
  - rewrite sendMessage_begin_eq.
    eapply (tidy_push st _ None); try eassumption; try reflexivity.
    + discriminate.
    + intros l [=].
  - now apply listener_tidy.
  - exact Ht.
Qed.

(** When every send starts with no message in progress, the flag and the
    listener's reference agree, and the list never holds two flagged
    messages. *)
Lemma polite_run_at_most_one_streaming (acts : list Action) (sid : string) :
  polite acts (newSession sid) ->
  length (streaming_messages (run acts (newSession sid))) <= 1.
Proof.
  intros Hp. apply tidy_at_most_one_streaming.
  now apply run_tidy; [apply tidy_newSession|].
Qed.

End Sending.

Section SuppressionScope.

Implicit Types (st : State) (a : Ambient) (d : string).

Lemma accept_delta_updates st a d :
  length (updates (accept_delta a d st)) = S (length (updates st)).
Proof.
  rewrite accept_delta_eq.
  destruct (currentAssistantMessage st); cbn [updates];
    rewrite length_app; cbn; lia.
Qed.

(** A delta with text is dropped exactly when it repeats the remembered one
    while a message is in progress. *)
Lemma listener_delta_dropped_iff st a d :
  active st = true -> d <> "" ->
  listener a (assistant_message_delta (Some d)) st = st
  <-> d = lastDeltaContent st /\ currentAssistantMessage st <> None.
Proof.
  intros Ha Hd. split.
  - intros H. rewrite (listener_delta_guarded st a d Ha Hd) in H.
    destruct ((d =? lastDeltaContent st) && truthy (currentAssistantMessage st))
      eqn:E.
    + apply andb_true_iff in E as [E1 E2]. apply String.eqb_eq in E1.
      split; [assumption|]. now destruct (currentAssistantMessage st).
    + exfalso. pose proof (accept_delta_updates st a d) as Hu.
      rewrite H in Hu. lia.
  - intros [Hl Hc]. destruct (currentAssistantMessage st) as [l|] eqn:E.
    + now apply (listener_delta_repeat st a d l).
    + now destruct Hc.
Qed.

(** The first delta with text of a response opens a new message object that
    holds exactly that text. *)
Lemma listener_delta_opens st a d :
  active st = true -> d <> "" -> currentAssistantMessage st = None ->
  let st' := listener a (assistant_message_delta (Some d)) st in
  currentAssistantMessage st' = Some (length (heap st)) /\
  accumulated st' = Some d.
Proof.
  intros Ha Hd Hc. cbv zeta. rewrite (listener_delta_new st a d Ha Hd Hc).
  split; [reflexivity|].
  unfold accumulated, inProgress. cbn.
  now rewrite lookup_app_r, Nat.sub_diag by lia.
Qed.

Lemma accumulated_spec_new (prev d : string) (rest : list (option string)) :
  d <> "" -> d <> prev ->
  accumulated_spec prev (Some d :: rest)
  = (d ++ accumulated_spec d rest)%string.
Proof.
  intros Hd Hp. cbn.
  now rewrite (proj2 (String.eqb_neq d "") Hd), (proj2 (String.eqb_neq d prev) Hp).
Qed.

(** C10, as stated, fails: a delta equal to an earlier, non-adjacent one is
    not appended again when only an empty (or missing) delta came between
    them, because empty deltas are skipped before the remembered delta is
    updated. *)
Lemma repeat_after_an_empty_delta_is_dropped :
  let a := mkAmbient "id-1" 1 in
  let st := sendMessage_begin a "q" (newSession "s") in
  accumulated
    (deliver (map delta [(a, Some "a"); (a, Some ""); (a, Some "a")]) st)
  = Some "a" /\
  accumulated
    (deliver (map delta [(a, Some "a"); (a, None); (a, Some "a")]) st)
  = Some "a".
Proof. split; reflexivity. Qed.

(** C10 (amended): duplicate suppression is scoped to consecutive deltas
    with text within one response.  [sendMessage] and a processed idle event
    both clear the remembered delta and the in-progress message (an idle
    event met with the latch set clears nothing); a delta with text is
    dropped exactly when it equals the remembered one while a message is in
    progress.  Hence a delta equal to an earlier one is appended again when
    a different delta with text came between them, and is dropped when only
    an empty or missing delta did; a delta equal to the last one of the
    previous response, after a processed idle or after a send, opens the
    next message with its text; the first delta with text of a response is
    never dropped. *)
Theorem duplicate_suppression_is_per_response
  st a a1 a2 a3 d d' (prompt : string) :
  active st = true -> d <> "" -> d' <> "" -> d <> d' ->
  (lastDeltaContent (sendMessage_begin a prompt st) = "" /\
   currentAssistantMessage (sendMessage_begin a prompt st) = None) /\
  (idleProcessed st = false ->
     lastDeltaContent (listener a session_idle st) = "" /\
     currentAssistantMessage (listener a session_idle st) = None) /\
  (idleProcessed st = true -> listener a session_idle st = st) /\
  (listener a (assistant_message_delta (Some d)) st = st
     <-> d = lastDeltaContent st /\ currentAssistantMessage st <> None) /\
  (currentAssistantMessage st = None ->
     accumulated
       (deliver (map delta [(a1, Some d); (a2, Some d'); (a3, Some d)]) st)
     = Some (d ++ d' ++ d)%string) /\
  (currentAssistantMessage st = None ->
     accumulated
       (deliver (map delta [(a1, Some d); (a2, Some ""); (a3, Some d)]) st)
     = Some d /\
     accumulated
       (deliver (map delta [(a1, Some d); (a2, None); (a3, Some d)]) st)
     = Some d) /\
  (idleProcessed st = false ->
     let st' := listener a1 (assistant_message_delta (Some d))
                  (listener a session_idle st) in
     currentAssistantMessage st' = Some (length (heap st)) /\
     accumulated st' = Some d) /\
  (let st' := listener a1 (assistant_message_delta (Some d))
                (sendMessage_begin a prompt st) in
   currentAssistantMessage st' = Some (S (length (heap st))) /\
   accumulated st' = Some d).
Proof.
  intros Ha Hd Hd' Hne.
  split; [split; reflexivity|].
  split.
  { intros Hi. now rewrite (listener_idle_processed st a Ha Hi). }
  split; [apply listener_idle_latched|].
  split; [now apply listener_delta_dropped_iff|].
  split.
  { intros Hc. rewrite (deliver_deltas_fresh _ st Ha Hc).
    cbn [map snd].
    rewrite (accumulated_spec_new "" d), (accumulated_spec_new d d'),
      (accumulated_spec_new d' d) by congruence.
    cbn [accumulated_spec]. cbv zeta. rewrite append_empty_r.
    now rewrite (falsy_app d _ (falsy_false d Hd)). }
  split.
  { intros Hc.
    assert (Hrep : forall rest, accumulated_spec d (Some d :: rest)
                                = accumulated_spec d rest).
    { intros rest. cbn. apply String.eqb_neq in Hd. rewrite Hd.
      now rewrite String.eqb_refl. }
    rewrite !(deliver_deltas_fresh _ st Ha Hc). cbn [map snd].
    rewrite !(accumulated_spec_new "" d) by congruence.
    change (accumulated_spec d [Some ""; Some d])
      with (accumulated_spec d [Some d]).
    change (accumulated_spec d [None; Some d])
      with (accumulated_spec d [Some d]).
    rewrite Hrep. cbn [accumulated_spec]. cbv zeta. rewrite append_empty_r.
    now rewrite (falsy_false d Hd). }
  split.
  { intros Hi. cbv zeta.
    pose proof (listener_idle_processed st a Ha Hi) as E.
    destruct (listener_delta_opens (listener a session_idle st) a1 d)
      as [Hc Hacc].
    - now rewrite listener_active.
    - exact Hd.
    - now rewrite E.
    - split; [|exact Hacc]. rewrite Hc, E. cbn [heap].
      destruct (currentAssistantMessage st); [now rewrite length_alter|reflexivity]. }
  cbv zeta.
  destruct (listener_delta_opens (sendMessage_begin a prompt st) a1 d)
    as [Hc Hacc]; try assumption; try reflexivity.
  split; [|exact Hacc]. rewrite Hc. rewrite sendMessage_begin_eq. cbn [heap].
  rewrite length_app. cbn. f_equal. lia.
Qed.

Lemma duplicate_suppression_is_per_response_witness :
  let a := mkAmbient "id-1" 1 in
  let st := deliver (map delta [(a, Some "ab")])
              (sendMessage_begin a "q" (newSession "s")) in
  let fresh := sendMessage_begin a "q" (newSession "s") in
  (active st = true /\ "ab" <> "" /\ "c" <> "" /\ "ab" <> "c") /\
  lastDeltaContent st = "ab" /\
  accumulated
    (listener a (assistant_message_delta (Some "ab"))
       (listener a session_idle st)) = Some "ab" /\
  accumulated
    (listener a (assistant_message_delta (Some "ab"))
       (sendMessage_begin a "again" st)) = Some "ab" /\
  accumulated
    (deliver (map delta [(a, Some "ab"); (a, Some "c"); (a, Some "ab")]) fresh)
  = Some "abcab" /\
  accumulated
    (deliver (map delta [(a, Some "ab"); (a, Some ""); (a, Some "ab")]) fresh)
  = Some "ab".
Proof.
  cbn zeta.
  split; [repeat split; discriminate|].
  split; [reflexivity|].
  split; [|split].
  - apply (duplicate_suppression_is_per_response
             (deliver (map delta [(mkAmbient "id-1" 1, Some "ab")])
                (sendMessage_begin (mkAmbient "id-1" 1) "q" (newSession "s")))
             (mkAmbient "id-1" 1) (mkAmbient "id-1" 1) (mkAmbient "id-1" 1)
             (mkAmbient "id-1" 1) "ab" "c" "again");
      try discriminate; reflexivity.
  - apply (duplicate_suppression_is_per_response
             (deliver (map delta [(mkAmbient "id-1" 1, Some "ab")])
                (sendMessage_begin (mkAmbient "id-1" 1) "q" (newSession "s")))
             (mkAmbient "id-1" 1) (mkAmbient "id-1" 1) (mkAmbient "id-1" 1)
             (mkAmbient "id-1" 1) "ab" "c" "again");
      try discriminate; reflexivity.
  - destruct (duplicate_suppression_is_per_response
                (sendMessage_begin (mkAmbient "id-1" 1) "q" (newSession "s"))
                (mkAmbient "id-1" 1) (mkAmbient "id-1" 1) (mkAmbient "id-1" 1)
                (mkAmbient "id-1" 1) "ab" "c" "again" eq_refl
                ltac:(discriminate) ltac:(discriminate) ltac:(discriminate))
      as (_ & _ & _ & _ & Hfar & Hempty & _).
    split; [exact (Hfar eq_refl) | exact (proj1 (Hempty eq_refl))].
Defined.

End SuppressionScope.

(** ** The availability probe *)

Section Probe.

Import CopilotProbe.

Implicit Types (h : Host) (p : string).

Lemma bind_eq {A B} (m : Probe A) (k : A -> Probe B) h :
  bind m k h = (fst (k (fst (m h)) h), snd (m h) ++ snd (k (fst (m h)) h)).
Proof.
  unfold bind. destruct (m h) as [x t1]. cbn. now destruct (k x h).
Qed.

(** [findExecutable] returns the first existing path and looks at no more
    than the paths up to it. *)
Lemma findExecutable_eq h (paths : list string) :
  findExecutable paths h = (first_existing h paths, map Stat (probed h paths)).
Proof.
  induction paths as [|p rest IH]; [reflexivity|].
  cbn [findExecutable]. rewrite bind_eq. cbn [existsSyncM fst snd].
  unfold first_existing. cbn [find probed].
  destruct (existsSync h p); cbn.
  - reflexivity.
  - rewrite IH. reflexivity.
Qed.

Lemma first_existing_none h (paths : list string) :
  first_existing h paths = None <->
  Forall (fun p => existsSync h p = false) paths.
Proof.
  unfold first_existing. induction paths as [|p rest IH]; cbn.
  - split; [constructor | reflexivity].
  - destruct (existsSync h p) eqn:E.
    + split; [discriminate|]. intros H. inversion H. congruence.
    + rewrite IH. split; [now constructor | now inversion 1].
Qed.

Lemma probed_none h (paths : list string) :
  first_existing h paths = None -> probed h paths = paths.
Proof.
  unfold first_existing. induction paths as [|p rest IH]; cbn; [reflexivity|].
  destruct (existsSync h p); [discriminate|].
  intros H. now rewrite IH.
Qed.

Lemma no_spawn_in_stats (paths : list string) :
  List.filter is_spawn (map Stat paths) = [].
Proof. induction paths; [reflexivity | assumption]. Qed.

Lemma getCopilotPath_eq h :
  getCopilotPath h =
  (first_existing h (COPILOT_PATHS h), map Stat (probed h (COPILOT_PATHS h))).
Proof.
  unfold getCopilotPath. rewrite bind_eq. cbn [ask fst snd app].
  now rewrite findExecutable_eq.
Qed.

Lemma getGhPath_eq h :
  getGhPath h =
  (first_existing h (GH_PATHS h), map Stat (probed h (GH_PATHS h))).
Proof.
  unfold getGhPath. rewrite bind_eq. cbn [ask fst snd app].
  now rewrite findExecutable_eq.
Qed.

Lemma candidate_nonempty h (a b : string) (tail : list string) p :
  a <> "" -> b <> "" ->
  first_existing h [a; b; join h tail] = Some p -> p <> "".
Proof.
  intros Ha Hb H. apply find_some in H as [Hin _].
  destruct Hin as [<-|[<-|[<-|[]]]]; auto using join_nonempty.
Qed.

Lemma copilot_path_nonempty h p :
  first_existing h (COPILOT_PATHS h) = Some p -> p <> "".
Proof. apply candidate_nonempty; discriminate. Qed.

Lemma gh_path_nonempty h p :
  first_existing h (GH_PATHS h) = Some p -> p <> "".
Proof. apply candidate_nonempty; discriminate. Qed.

Lemma isCopilotCliInstalled_absent h :
  first_existing h (COPILOT_PATHS h) = None ->
  isCopilotCliInstalled h = (cli_not_found, map Stat (COPILOT_PATHS h)).
Proof.
  intros H. unfold isCopilotCliInstalled.
  rewrite bind_eq, getCopilotPath_eq, H. cbn [fst snd pure].
  now rewrite (probed_none h _ H), app_nil_r.
Qed.

Lemma isCopilotCliInstalled_present h p :
  first_existing h (COPILOT_PATHS h) = Some p ->
  let command := (dquote ++ p ++ dquote ++ " --version")%string in
  isCopilotCliInstalled h =
  (match exec h command (getExtendedPath h) with
   | Resolved stdout _ => mkInstallStatus true (Some (trim stdout)) None
   | Rejected e => mkInstallStatus false None (Some (message_or "Unknown error" e))
   end,
   map Stat (probed h (COPILOT_PATHS h))
     ++ [Spawn command (getExtendedPath h)]).
Proof.
  intros H. pose proof (copilot_path_nonempty h p H) as Hp.
  cbv zeta. unfold isCopilotCliInstalled.
  rewrite bind_eq, getCopilotPath_eq, H. cbn [fst snd].
  rewrite (falsy_false p Hp). rewrite bind_eq. cbn [execWithPath fst snd].
  destruct (exec h _ _); cbn; reflexivity.
Qed.

(** C8: when none of the candidate paths exists the install check reports
    not-installed with its reason and spawns nothing (its only effects are
    the look-ups of the candidates); when one exists it runs the version
    subcommand of the first such path once, with the extended search path,
    and reports installed with the trimmed output if that resolves, or
    not-installed with the failure's message if it rejects. *)
Theorem isCopilotCliInstalled_outcomes h p :
  (Forall (fun c => existsSync h c = false) (COPILOT_PATHS h) ->
     result isCopilotCliInstalled h =
       mkInstallStatus false None
         (Some "Copilot CLI not found in common locations") /\
     effects isCopilotCliInstalled h = map Stat (COPILOT_PATHS h) /\
     List.filter is_spawn (effects isCopilotCliInstalled h) = []) /\
  (first_existing h (COPILOT_PATHS h) = Some p ->
     let command := (dquote ++ p ++ dquote ++ " --version")%string in
     effects isCopilotCliInstalled h =
       map Stat (probed h (COPILOT_PATHS h))
         ++ [Spawn command (getExtendedPath h)] /\
     (forall stdout stderr,
        exec h command (getExtendedPath h) = Resolved stdout stderr ->
        result isCopilotCliInstalled h =
          mkInstallStatus true (Some (trim stdout)) None) /\
     (forall e,
        exec h command (getExtendedPath h) = Rejected e ->
        result isCopilotCliInstalled h =
          mkInstallStatus false None (Some (message_or "Unknown error" e)))).
Proof.
  split.
  - intros H. apply first_existing_none in H.
    unfold result, effects. rewrite (isCopilotCliInstalled_absent h H).
    cbn [fst snd]. split; [reflexivity|]. split; [reflexivity|].
    apply no_spawn_in_stats.
  - intros H. cbv zeta. unfold result, effects.
    rewrite (isCopilotCliInstalled_present h p H). cbn [fst snd].
    split; [reflexivity|]. split.
    + intros out err E. now rewrite E.
    + intros e E. now rewrite E.
Qed.

Lemma isCopilotCliInstalled_outcomes_witness :
  let nl := String (ascii_of_nat 10) EmptyString in
  let bare := example_host [] (fun _ => Rejected NotAnError) in
  let brew :=
    example_host ["/usr/local/bin/copilot"]
      (fun _ => Resolved (" 0.0.339" ++ nl)%string "") in
  let broken :=
    example_host ["/opt/homebrew/bin/copilot"]
      (fun _ => Rejected (ErrorInstance "Command failed")) in
  (Forall (fun c => existsSync bare c = false) (COPILOT_PATHS bare) /\
   List.filter is_spawn (effects isCopilotCliInstalled bare) = []) /\
  (first_existing brew (COPILOT_PATHS brew) = Some "/usr/local/bin/copilot" /\
   result isCopilotCliInstalled brew
     = mkInstallStatus true (Some "0.0.339") None) /\
  (first_existing broken (COPILOT_PATHS broken)
     = Some "/opt/homebrew/bin/copilot" /\
   result isCopilotCliInstalled broken
     = mkInstallStatus false None (Some "Command failed")).
Proof.
  cbn zeta. split; [|split].
  - assert (H : Forall
        (fun c => existsSync (example_host [] (fun _ => Rejected NotAnError)) c
                  = false)
        (COPILOT_PATHS (example_host [] (fun _ => Rejected NotAnError)))).
    { repeat constructor. }
    split; [exact H|].
    apply (isCopilotCliInstalled_outcomes _ ""). exact H.
  - split; [reflexivity|].
    destruct (isCopilotCliInstalled_outcomes
                (example_host ["/usr/local/bin/copilot"]
                   (fun _ => Resolved
                      (" 0.0.339" ++ String (ascii_of_nat 10) EmptyString)%string ""))
                "/usr/local/bin/copilot") as [_ H].
    destruct (H eq_refl) as (_ & Hok & _).
    exact (Hok _ _ eq_refl).
  - split; [reflexivity|].
    destruct (isCopilotCliInstalled_outcomes
                (example_host ["/opt/homebrew/bin/copilot"]
                   (fun _ => Rejected (ErrorInstance "Command failed")))
                "/opt/homebrew/bin/copilot") as [_ H].
    destruct (H eq_refl) as (_ & _ & Hko).
    exact (Hko _ eq_refl).
Defined.

Lemma gh_fallback_eq h :
  let config := join h [homedir h; ".copilot"; "config.json"] in
  gh_fallback h =
  (if existsSync h config then mkLoginStatus true None
   else mkLoginStatus false (Some "GitHub CLI (gh) not found"),
   [Stat config]).
Proof.
  cbv zeta. unfold gh_fallback. rewrite bind_eq. cbn [ask fst snd app].
  rewrite bind_eq. cbn [existsSyncM fst snd].
  now destruct (existsSync h _).
Qed.

Lemma isCopilotLoggedIn_absent h :
  first_existing h (GH_PATHS h) = None ->
  let config := join h [homedir h; ".copilot"; "config.json"] in
  isCopilotLoggedIn h =
  (if existsSync h config then mkLoginStatus true None
   else mkLoginStatus false (Some "GitHub CLI (gh) not found"),
   map Stat (GH_PATHS h ++ [config])).
Proof.
  intros H. cbv zeta. unfold isCopilotLoggedIn.
  rewrite bind_eq, getGhPath_eq, H. cbn [fst snd].
  rewrite gh_fallback_eq. cbn [fst snd].
  now rewrite (probed_none h _ H), map_app.
Qed.

Lemma isCopilotLoggedIn_present h p :
  first_existing h (GH_PATHS h) = Some p ->
  let command := (dquote ++ p ++ dquote ++ " auth status")%string in
  isCopilotLoggedIn h =
  (match exec h command (getExtendedPath h) with
   | Resolved _ _ => mkLoginStatus true None
   | Rejected e =>
       mkLoginStatus false (Some (message_or "Not logged in to GitHub" e))
   end,
   map Stat (probed h (GH_PATHS h)) ++ [Spawn command (getExtendedPath h)]).
Proof.
  intros H. pose proof (gh_path_nonempty h p H) as Hp.
  cbv zeta. unfold isCopilotLoggedIn.
  rewrite bind_eq, getGhPath_eq, H. cbn [fst snd].
  rewrite (falsy_false p Hp). rewrite bind_eq. cbn [execWithPath fst snd].
  destruct (exec h _ _) as [out err|e]; cbn [fst snd pure].
  - now destruct (includes "Logged in" (out ++ err) || includes check_mark (out ++ err)).
  - reflexivity.
Qed.

(** C4: with the auth CLI found, the login check runs its status subcommand
    once; it reports logged-in whenever that resolves, whatever it printed,
    and reports not-logged-in, with the failure's message, exactly when it
    rejects.  With the auth CLI absent from every candidate path it spawns
    nothing and reports logged-in exactly when the copilot config file
    exists, otherwise not-logged-in with the not-found reason. *)
Theorem isCopilotLoggedIn_outcomes h p :
  let config := join h [homedir h; ".copilot"; "config.json"] in
  (Forall (fun c => existsSync h c = false) (GH_PATHS h) ->
     loggedIn (result isCopilotLoggedIn h) = existsSync h config /\
     (existsSync h config = true ->
        result isCopilotLoggedIn h = mkLoginStatus true None) /\
     (existsSync h config = false ->
        result isCopilotLoggedIn h =
          mkLoginStatus false (Some "GitHub CLI (gh) not found")) /\
     effects isCopilotLoggedIn h = map Stat (GH_PATHS h ++ [config]) /\
     List.filter is_spawn (effects isCopilotLoggedIn h) = []) /\
  (first_existing h (GH_PATHS h) = Some p ->
     let command := (dquote ++ p ++ dquote ++ " auth status")%string in
     effects isCopilotLoggedIn h =
       map Stat (probed h (GH_PATHS h))
         ++ [Spawn command (getExtendedPath h)] /\
     (forall stdout stderr,
        exec h command (getExtendedPath h) = Resolved stdout stderr ->
        result isCopilotLoggedIn h = mkLoginStatus true None) /\
     (forall e,
        exec h command (getExtendedPath h) = Rejected e ->
        result isCopilotLoggedIn h =
          mkLoginStatus false (Some (message_or "Not logged in to GitHub" e))) /\
     (loggedIn (result isCopilotLoggedIn h) = false <->
        exists e, exec h command (getExtendedPath h) = Rejected e)).
Proof.
  cbv zeta. split.
  - intros H. apply first_existing_none in H.
    unfold result, effects. rewrite (isCopilotLoggedIn_absent h H).
    cbn [fst snd].
    split; [now destruct (existsSync h _)|].
    split; [now intros ->|]. split; [now intros ->|].
    split; [reflexivity|]. apply no_spawn_in_stats.
  - intros H. unfold result, effects.
    rewrite (isCopilotLoggedIn_present h p H). cbn [fst snd].
    split; [reflexivity|]. split; [|split].
    + intros out err E. now rewrite E.
    + intros e E. now rewrite E.
    + destruct (exec h _ _) as [out err|e]; cbn.
      * split; [discriminate|]. now intros [e [=]].
      * split; [eauto | reflexivity].
Qed.

Lemma isCopilotLoggedIn_outcomes_witness :
  let quiet := example_host ["/usr/local/bin/gh"] (fun _ => Resolved "" "") in
  let out := example_host ["/opt/homebrew/bin/gh"]
               (fun _ => Rejected (ErrorInstance "Command failed: gh auth status")) in
  let nogh := example_host ["/Users/me/.copilot/config.json"]
                (fun _ => Rejected NotAnError) in
  (first_existing quiet (GH_PATHS quiet) = Some "/usr/local/bin/gh" /\
   result isCopilotLoggedIn quiet = mkLoginStatus true None) /\
  (first_existing out (GH_PATHS out) = Some "/opt/homebrew/bin/gh" /\
   result isCopilotLoggedIn out
     = mkLoginStatus false (Some "Command failed: gh auth status")) /\
  (Forall (fun c => existsSync nogh c = false) (GH_PATHS nogh) /\
   loggedIn (result isCopilotLoggedIn nogh) = true /\
   List.filter is_spawn (effects isCopilotLoggedIn nogh) = []).
Proof.
  cbn zeta. split; [|split].
  - split; [reflexivity|].
    destruct (isCopilotLoggedIn_outcomes
                (example_host ["/usr/local/bin/gh"] (fun _ => Resolved "" ""))
                "/usr/local/bin/gh") as [_ H].
    destruct (H eq_refl) as (_ & Hok & _).
    exact (Hok _ _ eq_refl).
  - split; [reflexivity|].
    destruct (isCopilotLoggedIn_outcomes
                (example_host ["/opt/homebrew/bin/gh"]
                   (fun _ => Rejected (ErrorInstance "Command failed: gh auth status")))
                "/opt/homebrew/bin/gh") as [_ H].
    destruct (H eq_refl) as (_ & _ & Hko & _).
    exact (Hko _ eq_refl).
  - assert (F : Forall
        (fun c => existsSync
                    (example_host ["/Users/me/.copilot/config.json"]
                       (fun _ => Rejected NotAnError)) c = false)
        (GH_PATHS (example_host ["/Users/me/.copilot/config.json"]
                     (fun _ => Rejected NotAnError)))).
    { repeat constructor. }
    split; [exact F|].
    destruct (isCopilotLoggedIn_outcomes
                (example_host ["/Users/me/.copilot/config.json"]
                   (fun _ => Rejected NotAnError)) "") as [H _].
    destruct (H F) as (Hin & _ & _ & _ & Hsp).
    split; [exact Hin | exact Hsp].
Defined.

Lemma isCopilotLoggedIn_first_effect h :
  exists rest, effects isCopilotLoggedIn h = Stat "/opt/homebrew/bin/gh" :: rest.
Proof.
  unfold effects, isCopilotLoggedIn. rewrite bind_eq, getGhPath_eq.
  cbn [fst snd GH_PATHS probed map app]. eauto.
Qed.

(** C9: when the install check reports not-installed, [getCopilotStatus]
    returns not-installed and not-logged-in with the install check's reason,
    and its effects are exactly those of the install check: the login check,
    whose first effect is always a look-up of the first gh candidate, is not
    run.  Otherwise it returns installed with the version, and the login
    check's outcome and reason, after running both checks in that order. *)
Theorem getCopilotStatus_outcomes h :
  let install := result isCopilotCliInstalled h in
  let login := result isCopilotLoggedIn h in
  (installed install = false ->
     result getCopilotStatus h =
       mkCopilotStatus false false None (install_error install) /\
     effects getCopilotStatus h = effects isCopilotCliInstalled h) /\
  (installed install = true ->
     result getCopilotStatus h =
       mkCopilotStatus true (loggedIn login) (version install)
         (login_error login) /\
     effects getCopilotStatus h =
       effects isCopilotCliInstalled h ++ effects isCopilotLoggedIn h) /\
  (exists rest,
     effects isCopilotLoggedIn h = Stat "/opt/homebrew/bin/gh" :: rest).
Proof.
  cbv zeta. unfold result, effects, getCopilotStatus.
  rewrite bind_eq. cbn [fst snd].
  split; [|split].
  - intros E. rewrite E. cbn [negb pure fst snd]. now rewrite app_nil_r.
  - intros E. rewrite E. cbn [negb]. rewrite bind_eq. cbn [pure fst snd].
    now rewrite app_nil_r.
  - apply isCopilotLoggedIn_first_effect.
Qed.

Lemma getCopilotStatus_outcomes_witness :
  let bare := example_host ["/usr/local/bin/gh"] (fun _ => Resolved "" "") in
  let full := example_host ["/usr/local/bin/copilot"; "/usr/local/bin/gh"]
                (fun _ => Resolved "1.2.3" "") in
  (installed (result isCopilotCliInstalled bare) = false /\
   result getCopilotStatus bare =
     mkCopilotStatus false false None
       (Some "Copilot CLI not found in common locations") /\
   effects getCopilotStatus bare = map Stat (COPILOT_PATHS bare)) /\
  (installed (result isCopilotCliInstalled full) = true /\
   result getCopilotStatus full =
     mkCopilotStatus true true (Some "1.2.3") None).
Proof.
  cbn zeta. split.
  - split; [reflexivity|].
    destruct (getCopilotStatus_outcomes
                (example_host ["/usr/local/bin/gh"] (fun _ => Resolved "" "")))
      as [H _].
    destruct (H eq_refl) as [Hr He]. split; [exact Hr | exact He].
  - split; [reflexivity|].
    destruct (getCopilotStatus_outcomes
                (example_host ["/usr/local/bin/copilot"; "/usr/local/bin/gh"]
                   (fun _ => Resolved "1.2.3" "")))
      as (_ & H & _).
    destruct (H eq_refl) as [Hr _]. exact Hr.
Defined.

End Probe.

(** ** Further properties of the availability probe *)

Section ProbeShape.

Import CopilotProbe.

Implicit Types (h : Host) (p : string).

(** X1: the candidates are tried in order: the first one that exists is
    returned, and nothing after it is looked at. *)
Theorem findExecutable_first_match h (before after : list string) p :
  Forall (fun c => existsSync h c = false) before ->
  existsSync h p = true ->
  result (findExecutable (before ++ p :: after)) h = Some p /\
  effects (findExecutable (before ++ p :: after)) h
    = map Stat (before ++ [p]).
Proof.
  intros Hb Hp. unfold result, effects.
  induction Hb as [|c before Hc Hb IH].
  - cbn [app findExecutable]. rewrite bind_eq. cbn [existsSyncM fst snd].
    rewrite Hp. now cbn.
  - cbn [app findExecutable]. rewrite bind_eq. cbn [existsSyncM fst snd].
    rewrite Hc. destruct IH as [IH1 IH2]. rewrite IH1, IH2. now cbn.
Qed.

Lemma findExecutable_first_match_witness :
  let h := example_host ["/usr/local/bin/gh"; "/Users/me/.local/bin/gh"]
             (fun _ => Resolved "" "") in
  (Forall (fun c => existsSync h c = false) ["/opt/homebrew/bin/gh"] /\
   existsSync h "/usr/local/bin/gh" = true) /\
  result getGhPath h = Some "/usr/local/bin/gh" /\
  effects (findExecutable (GH_PATHS h)) h
    = [Stat "/opt/homebrew/bin/gh"; Stat "/usr/local/bin/gh"].
Proof.
  cbn zeta. split; [split; [repeat constructor | reflexivity]|].
  split; [reflexivity|].
  apply (findExecutable_first_match
           (example_host ["/usr/local/bin/gh"; "/Users/me/.local/bin/gh"]
              (fun _ => Resolved "" ""))
           ["/opt/homebrew/bin/gh"] ["/Users/me/.local/bin/gh"]
           "/usr/local/bin/gh");
    [repeat constructor | reflexivity].
Defined.

(** The three shapes an install check can return. *)
Lemma isCopilotCliInstalled_cases h :
  (first_existing h (COPILOT_PATHS h) = None /\
   result isCopilotCliInstalled h = cli_not_found) \/
  (exists p out err,
     first_existing h (COPILOT_PATHS h) = Some p /\
     exec h (dquote ++ p ++ dquote ++ " --version")%string (getExtendedPath h)
       = Resolved out err /\
     result isCopilotCliInstalled h
       = mkInstallStatus true (Some (trim out)) None) \/
  (exists p e,
     first_existing h (COPILOT_PATHS h) = Some p /\
     exec h (dquote ++ p ++ dquote ++ " --version")%string (getExtendedPath h)
       = Rejected e /\
     result isCopilotCliInstalled h
       = mkInstallStatus false None (Some (message_or "Unknown error" e))).
Proof.
  unfold result.
  destruct (first_existing h (COPILOT_PATHS h)) as [p|] eqn:E.
  - rewrite (isCopilotCliInstalled_present h p E). cbn [fst].
    destruct (exec h _ _) as [out err|e] eqn:X.
    + right; left. now exists p, out, err.
    + right; right. now exists p, e.
  - left. now rewrite (isCopilotCliInstalled_absent h E).
Qed.

(** The two shapes a login check can return. *)
Lemma isCopilotLoggedIn_cases h :
  result isCopilotLoggedIn h = mkLoginStatus true None \/
  exists e, result isCopilotLoggedIn h = mkLoginStatus false (Some e).
Proof.
  unfold result.
  destruct (first_existing h (GH_PATHS h)) as [p|] eqn:E.
  - rewrite (isCopilotLoggedIn_present h p E). cbn [fst].
    destruct (exec h _ _); [now left | right; eauto].
  - rewrite (isCopilotLoggedIn_absent h E). cbn [fst].
    destruct (existsSync h _); [now left | right; eauto].
Qed.

(** X2: the install check reports installed exactly when some candidate exists
    and the version subcommand of the first such one resolved; a version is
    present exactly when it reports installed, a reason exactly when it
    does not. *)
Theorem isCopilotCliInstalled_shape h :
  let r := result isCopilotCliInstalled h in
  (installed r = true <->
     exists p out err,
       first_existing h (COPILOT_PATHS h) = Some p /\
       exec h (dquote ++ p ++ dquote ++ " --version")%string
         (getExtendedPath h) = Resolved out err) /\
  truthy (version r) = installed r /\
  truthy (install_error r) = negb (installed r).
Proof.
  cbv zeta.
  destruct (isCopilotCliInstalled_cases h)
    as [[E ->]|[(p & out & err & E & X & ->)|(p & e & E & X & ->)]];
    cbn [installed version install_error truthy negb cli_not_found].
  - repeat split; try discriminate.
    intros (p & out & err & E' & _). congruence.
  - repeat split. intros _. now exists p, out, err.
  - repeat split; try discriminate.
    intros (p' & out & err & E' & X'). congruence.
Qed.

(** X3: the login check carries a reason exactly when it reports not logged
    in. *)
Theorem isCopilotLoggedIn_shape h :
  truthy (login_error (result isCopilotLoggedIn h))
  = negb (loggedIn (result isCopilotLoggedIn h)).
Proof.
  destruct (isCopilotLoggedIn_cases h) as [->|[e ->]]; reflexivity.
Qed.

(** X4: the combined status never reports logged in without installed; it has
    a version exactly when installed, and a reason exactly when something
    is missing. *)
Theorem getCopilotStatus_shape h :
  let s := result getCopilotStatus h in
  (isLoggedIn s = true -> isInstalled s = true) /\
  truthy (status_version s) = isInstalled s /\
  truthy (status_error s) = negb (isInstalled s && isLoggedIn s).
Proof.
  cbv zeta. unfold result at 1 2 3 4 5 6 7, getCopilotStatus.
  rewrite bind_eq. cbn [fst snd]. fold (result isCopilotCliInstalled h).
  destruct (isCopilotCliInstalled_cases h)
    as [[E ->]|[(p & out & err & E & X & ->)|(p & e & E & X & ->)]];
    cbn [installed negb pure fst version install_error cli_not_found];
    try (cbn; repeat split; congruence).
  rewrite bind_eq. cbn [pure fst]. fold (result isCopilotLoggedIn h).
  destruct (isCopilotLoggedIn_cases h) as [->|[e ->]]; cbn; now repeat split.
Qed.

Lemma probe_extended_path h :
  getExtendedPath h
  = (Vocabulary.path_prefix h ++ default "" (env_PATH h))%string.
Proof.
  unfold getExtendedPath, Vocabulary.path_prefix. cbn [String.concat].
  assert (E : match env_PATH h with
              | Some p => if falsy p then "" else p
              | None => ""
              end = default "" (env_PATH h)).
  { destruct (env_PATH h) as [p|]; [|reflexivity]. unfold falsy. cbn.
    destruct (String.eqb_spec p ""); [now subst | reflexivity]. }
  rewrite E. cbn. now rewrite !append_assoc.
Qed.

(** X5: the subprocesses of a status check, all of them and in order: the
    version subcommand of the first copilot candidate that exists, then,
    only if that resolved, the auth status subcommand of the first gh
    candidate that exists; each with the search path made of the two
    Homebrew directories, the local bin directory of the home and then the
    process's own PATH (nothing when it is unset). *)
Theorem getCopilotStatus_spawns h :
  let search_path :=
    ("/opt/homebrew/bin:/usr/local/bin:"
     ++ join h [homedir h; ".local/bin"] ++ ":"
     ++ default "" (env_PATH h))%string in
  List.filter is_spawn (effects getCopilotStatus h) =
  match first_existing h (COPILOT_PATHS h) with
  | None => []
  | Some p =>
      let version_cmd := (dquote ++ p ++ dquote ++ " --version")%string in
      Spawn version_cmd search_path ::
      match exec h version_cmd search_path with
      | Rejected _ => []
      | Resolved _ _ =>
          match first_existing h (GH_PATHS h) with
          | None => []
          | Some q =>
              [Spawn (dquote ++ q ++ dquote ++ " auth status")%string
                 search_path]
          end
      end
  end.
Proof.
  cbv zeta.
  assert (P : ("/opt/homebrew/bin:/usr/local/bin:"
               ++ join h [homedir h; ".local/bin"] ++ ":"
               ++ default "" (env_PATH h))%string = getExtendedPath h).
  { rewrite probe_extended_path. unfold Vocabulary.path_prefix.
    now rewrite !append_assoc. }
  rewrite P. clear P.
  unfold effects, getCopilotStatus. rewrite bind_eq. cbn [fst snd].
  rewrite List.filter_app.
  destruct (first_existing h (COPILOT_PATHS h)) as [p|] eqn:E.
  - rewrite (isCopilotCliInstalled_present h p E). cbn [fst snd].
    rewrite List.filter_app, no_spawn_in_stats. cbn [List.filter is_spawn app].
    f_equal.
    destruct (exec h _ _) as [out err|e]; cbn [installed negb pure snd];
      [|reflexivity].
    rewrite bind_eq. cbn [pure fst snd]. rewrite app_nil_r.
    destruct (first_existing h (GH_PATHS h)) as [q|] eqn:G.
    + rewrite (isCopilotLoggedIn_present h q G). cbn [snd].
      now rewrite List.filter_app, no_spawn_in_stats.
    + rewrite (isCopilotLoggedIn_absent h G). cbn [snd].
      apply no_spawn_in_stats.
  - rewrite (isCopilotCliInstalled_absent h E). cbn [fst snd].
    now rewrite no_spawn_in_stats.
Qed.

End ProbeShape.

(** ** The shared client and the sessions opened on it *)

Section ClientLifecycle.

Import Vocabulary.

Implicit Types (h : CopilotProbe.Host) (g : Lifecycle.Globals) (st : State).

Lemma deliver_stale (evs : list (Ambient * SessionEvent)) st :
  active st = false -> deliver evs st = st.
Proof.
  intros H. induction evs as [|e evs IH]; [reflexivity|].
  rewrite deliver_cons. now rewrite listener_stale.
Qed.

Lemma under_stale g st :
  Lifecycle.currentSessionId g <> Some (sessionId st) ->
  active (Lifecycle.under g st) = false.
Proof. intros H. apply stale_iff. exact H. Qed.

(** X6: when nothing else runs while [getClient] awaits [start()] and
    that resolves, calling it again does nothing: no directory, no
    construction, no start, the same client, the variables untouched; and
    such a call constructs and starts at most once.  When instead
    [stopClient] completes during that await of a first call, the resumed
    call marks the client as started although the slot is empty and returns
    null, and the next call constructs a new client and returns it without
    ever starting it. *)
Theorem getClient_after_a_resolved_start
  h g (fresh fresh' : nat) (mk mk' : bool) (sr' : option string) :
  (let out := Lifecycle.getClient h fresh mk None g in
   Lifecycle.getClient h fresh' mk' sr' (fst (fst out))
     = (fst (fst out), [], snd out) /\
   (exists c, snd out = inl (Some c)
              /\ Lifecycle.globalClient (fst (fst out)) = Some c) /\
   Lifecycle.clientStarted (fst (fst out)) = true /\
   length (List.filter Lifecycle.is_new (snd (fst out))) <= 1 /\
   length (List.filter Lifecycle.is_start (snd (fst out))) <= 1) /\
  (Lifecycle.globalClient g = None -> Lifecycle.clientStarted g = false ->
   let entered := Lifecycle.getClient_enter h fresh mk g in
   let stopped := Lifecycle.stopClient None (fst (fst entered)) in
   let resumed := Lifecycle.getClient_resume None (fst (fst stopped)) in
   let again := Lifecycle.getClient h fresh' mk' sr' (fst resumed) in
   snd entered = Lifecycle.AwaitingStart fresh /\
   snd (fst stopped) = [Lifecycle.Stop fresh] /\
   snd resumed = inl None /\
   Lifecycle.globalClient (fst resumed) = None /\
   Lifecycle.clientStarted (fst resumed) = true /\
   snd again = inl (Some fresh') /\
   List.filter Lifecycle.is_new (snd (fst again))
     = [Lifecycle.NewClient fresh' (sessionDir h)] /\
   List.filter Lifecycle.is_start (snd (fst again)) = [] /\
   Lifecycle.globalClient (fst (fst again)) = Some fresh' /\
   Lifecycle.clientStarted (fst (fst again)) = true).
Proof.
  split.
  - destruct g as [[c|] [|] sid path]; destruct mk; cbn;
      (split; [reflexivity|]); (split; [eauto|]); repeat split; lia.
  - destruct g as [c s sid path]. cbn [Lifecycle.globalClient Lifecycle.clientStarted].
    intros -> ->. destruct mk, mk'; cbn; repeat split.
Qed.

Lemma getClient_after_a_resolved_start_witness :
  let h := example_host [] (fun _ => CopilotProbe.Rejected CopilotProbe.NotAnError) in
  let g := Lifecycle.loaded (Some "/usr/bin") in
  let entered := Lifecycle.getClient_enter h 1 false g in
  let stopped := Lifecycle.stopClient None (fst (fst entered)) in
  let resumed := Lifecycle.getClient_resume None (fst (fst stopped)) in
  (Lifecycle.globalClient g = None /\ Lifecycle.clientStarted g = false) /\
  snd resumed = inl None /\
  List.filter Lifecycle.is_start
    (snd (fst (Lifecycle.getClient h 2 false None (fst resumed)))) = [] /\
  snd (Lifecycle.getClient h 2 false None (fst resumed)) = inl (Some 2).
Proof.
  cbn zeta. split; [split; reflexivity|].
  destruct (getClient_after_a_resolved_start
              (example_host [] (fun _ => CopilotProbe.Rejected CopilotProbe.NotAnError))
              (Lifecycle.loaded (Some "/usr/bin")) 1 2 false false None)
    as [_ H].
  destruct (H eq_refl eq_refl) as (_ & _ & Hr & _ & _ & Ha & _ & Hs & _).
  split; [exact Hr|]. split; [exact Hs | exact Ha].
Defined.



(** X8: two calls of [getClient] that both reach the [await] before the first
    [start()] settles: one client object is constructed, and it is started
    twice. *)
Theorem getClient_overlapping_calls_start_twice
  h g (f1 f2 : nat) (m1 m2 : bool) :
  Lifecycle.globalClient g = None -> Lifecycle.clientStarted g = false ->
  let e1 := Lifecycle.getClient_enter h f1 m1 g in
  let e2 := Lifecycle.getClient_enter h f2 m2 (fst (fst e1)) in
  let calls := snd (fst e1) ++ snd (fst e2) in
  List.filter Lifecycle.is_new calls = [Lifecycle.NewClient f1 (sessionDir h)] /\
  List.filter Lifecycle.is_start calls
    = [Lifecycle.Start f1; Lifecycle.Start f1] /\
  snd e1 = Lifecycle.AwaitingStart f1 /\
  snd e2 = Lifecycle.AwaitingStart f1 /\
  fst (fst e2) = fst (fst e1).
Proof.
  destruct g as [c s sid path]; cbn. intros -> ->.
  destruct m1; cbn; repeat split.
Qed.

Lemma getClient_overlapping_calls_start_twice_witness :
  let h := example_host [] (fun _ => CopilotProbe.Rejected CopilotProbe.NotAnError) in
  let g := Lifecycle.loaded None in
  (Lifecycle.globalClient g = None /\ Lifecycle.clientStarted g = false) /\
  List.filter Lifecycle.is_start
    (snd (fst (Lifecycle.getClient_enter h 1 false g))
     ++ snd (fst (Lifecycle.getClient_enter h 2 false
                    (fst (fst (Lifecycle.getClient_enter h 1 false g))))))
  = [Lifecycle.Start 1; Lifecycle.Start 1].
Proof.
  cbn zeta. split; [split; reflexivity|].
  apply (getClient_overlapping_calls_start_twice
           (example_host [] (fun _ => CopilotProbe.Rejected CopilotProbe.NotAnError))
           (Lifecycle.loaded None) 1 2 false false); reflexivity.
Defined.

Lemma getExtendedPath_prefix h (path : option string) :
  Lifecycle.getExtendedPath h path
  = (path_prefix h ++ default "" path)%string.
Proof.
  unfold Lifecycle.getExtendedPath, path_prefix. cbn [String.concat].
  assert (E : match path with
              | Some p => if falsy p then "" else p
              | None => ""
              end = default "" path).
  { destruct path as [p|]; [|reflexivity]. unfold falsy. cbn.
    destruct (String.eqb_spec p ""); [now subst | reflexivity]. }
  rewrite E. cbn. now rewrite !append_assoc.
Qed.

(** X9: constructing the client puts the three directories in front of the
    search path, and [stopClient] does not take them away: after a stop and
    a new [getClient] they are there twice. *)
Theorem client_recreation_extends_the_path_again
  h (path : option string) (f1 f2 : nat) (m1 m2 : bool)
  (s1 s2 : option string) :
  let g1 := fst (fst (Lifecycle.getClient h f1 m1 s1 (Lifecycle.loaded path))) in
  let g2 := fst (fst (Lifecycle.stopClient None g1)) in
  let g3 := fst (fst (Lifecycle.getClient h f2 m2 s2 g2)) in
  Lifecycle.PATH g1 = Some (path_prefix h ++ default "" path)%string /\
  Lifecycle.PATH g2 = Lifecycle.PATH g1 /\
  Lifecycle.PATH g3
    = Some (path_prefix h ++ path_prefix h ++ default "" path)%string.
Proof.
  cbv zeta.
  destruct m1, m2, s1, s2;
    cbn -[Lifecycle.getExtendedPath path_prefix String.append];
    rewrite !getExtendedPath_prefix; repeat split.
Qed.

(** X10: opening a session (new or resumed) makes the fresh identifier the
    current one before the vendor is asked, so every earlier session's
    events are dropped from then on, also when the vendor call fails; if
    the client cannot be started the current identifier is left alone. *)
Theorem opening_a_session_silences_earlier_ones
  h (a : Ambient) (v : Lifecycle.Vendor) (model resumed : string) g st
  (evs : list (Ambient * SessionEvent)) :
  randomUUID a <> sessionId st ->
  let g1 := fst (fst (Lifecycle.createChatSession h a v model g)) in
  let g2 := fst (fst (Lifecycle.resumeChatSession h a v resumed g)) in
  (Lifecycle.start_rejection v = None \/ Lifecycle.clientStarted g = true ->
     Lifecycle.currentSessionId g1 = Some (randomUUID a) /\
     Lifecycle.currentSessionId g2 = Some (randomUUID a) /\
     deliver evs (Lifecycle.under g1 st) = Lifecycle.under g1 st /\
     deliver evs (Lifecycle.under g2 st) = Lifecycle.under g2 st) /\
  (Lifecycle.start_rejection v <> None -> Lifecycle.clientStarted g = false ->
     Lifecycle.currentSessionId g1 = Lifecycle.currentSessionId g /\
     Lifecycle.currentSessionId g2 = Lifecycle.currentSessionId g).
Proof.
  intros Hne. cbv zeta.
  unfold Lifecycle.createChatSession, Lifecycle.resumeChatSession.
  split.
  - intros Hok.
    assert (H : forall call gs,
      Lifecycle.currentSessionId
        (fst (fst (Lifecycle.openSession h a v call gs g)))
      = Some (randomUUID a)).
    { intros call gs. unfold Lifecycle.openSession, Lifecycle.getClient.
      destruct g as [[c|] [|] sid path], v as [fc mk [e|] sj sdk];
        destruct mk, sj; cbn in *; try reflexivity;
        destruct Hok; discriminate. }
    rewrite !H. repeat split; apply deliver_stale, under_stale; rewrite H;
      congruence.
  - intros Hrej Hs.
    assert (H : forall call gs,
      Lifecycle.currentSessionId
        (fst (fst (Lifecycle.openSession h a v call gs g)))
      = Lifecycle.currentSessionId g).
    { intros call gs. unfold Lifecycle.openSession, Lifecycle.getClient.
      destruct g as [[c|] s sid path], v as [fc mk [e|] sj sdk];
        cbn in *; subst s; destruct mk; cbn; try reflexivity;
        now destruct Hrej. }
    now rewrite !H.
Qed.

Lemma opening_a_session_silences_earlier_ones_witness :
  let h := example_host [] (fun _ => CopilotProbe.Rejected CopilotProbe.NotAnError) in
  let a := mkAmbient "id-2" 2 in
  let v := Lifecycle.mkVendor 1 false None (Some "model not available") "sdk-1" in
  let g := Lifecycle.mkGlobals (Some 0) true (Some "id-1") (Some "/usr/bin") in
  let st := sendMessage_begin (mkAmbient "m-1" 1) "hello" (newSession "id-1") in
  randomUUID a <> sessionId st /\
  active st = true /\
  listener a session_idle
    (Lifecycle.under (fst (fst (Lifecycle.createChatSession h a v "gpt-4.1" g))) st)
  = Lifecycle.under (fst (fst (Lifecycle.createChatSession h a v "gpt-4.1" g))) st.
Proof.
  cbn zeta. split; [discriminate|]. split; [reflexivity|].
  destruct (opening_a_session_silences_earlier_ones
              (example_host [] (fun _ => CopilotProbe.Rejected CopilotProbe.NotAnError))
              (mkAmbient "id-2" 2)
              (Lifecycle.mkVendor 1 false None (Some "model not available") "sdk-1")
              "gpt-4.1" "unused"
              (Lifecycle.mkGlobals (Some 0) true (Some "id-1") (Some "/usr/bin"))
              (sendMessage_begin (mkAmbient "m-1" 1) "hello" (newSession "id-1"))
              [(mkAmbient "id-2" 2, session_idle)])
    as [H _]; [discriminate|].
  destruct (H (or_introl eq_refl)) as (_ & _ & Hd & _). exact Hd.
Defined.

(** X11: [stopClient] (any session's [stop]) clears the current identifier along
    with the client: from then on the events of every session are dropped.
    If [stop()] rejects, nothing is cleared; with no client it does nothing
    at all. *)
Theorem stopClient_silences_every_session
  g (c : nat) (e : string) st (evs : list (Ambient * SessionEvent)) :
  Lifecycle.globalClient g = Some c ->
  let g' := fst (fst (Lifecycle.stopClient None g)) in
  g' = Lifecycle.mkGlobals None false None (Lifecycle.PATH g) /\
  deliver evs (Lifecycle.under g' st) = Lifecycle.under g' st /\
  Lifecycle.stopClient (Some e) g = (g, [Lifecycle.Stop c], Some e) /\
  Lifecycle.stopClient None g' = (g', [], None).
Proof.
  intros Hc. cbv zeta. unfold Lifecycle.stopClient. rewrite Hc. cbn.
  repeat split. now apply deliver_stale.
Qed.

Lemma stopClient_silences_every_session_witness :
  let g := Lifecycle.mkGlobals (Some 0) true (Some "id-1") (Some "/usr/bin") in
  let st := sendMessage_begin (mkAmbient "m-1" 1) "hello" (newSession "id-1") in
  Lifecycle.globalClient g = Some 0 /\
  deliver [(mkAmbient "m-2" 2, assistant_message_delta (Some "late"))]
    (Lifecycle.under (fst (fst (Lifecycle.stopClient None g))) st)
  = Lifecycle.under (fst (fst (Lifecycle.stopClient None g))) st.
Proof.
  cbn zeta. split; [reflexivity|].
  apply (stopClient_silences_every_session
           (Lifecycle.mkGlobals (Some 0) true (Some "id-1") (Some "/usr/bin"))
           0 "unused"
           (sendMessage_begin (mkAmbient "m-1" 1) "hello" (newSession "id-1"))
           [(mkAmbient "m-2" 2, assistant_message_delta (Some "late"))]).
  reflexivity.
Defined.

End ClientLifecycle.

(** ** Invariants of a session *)

Section SessionInvariants.

Import Vocabulary.

Implicit Types (st : State) (a : Ambient) (d : string).

(** A step changes a session in one of five ways. *)
Lemma step_cases st (act : Action) :
  step st act = st \/
  (exists c, act = Rebind c /\
     step st act = mkState c (sessionId st) (heap st) (messages st)
       (chatIsLoading st) (isLoading st) (currentAssistantMessage st)
       (lastDeltaContent st) (idleProcessed st) (updates st)) \/
  (exists a prompt, act = Send a prompt /\
     step st act = sendMessage_begin a prompt st) \/
  (exists a d, d <> "" /\ active st = true /\
     step st act = accept_delta a d st) \/
  (active st = true /\ idleProcessed st = false /\
     step st act = accept_idle st).
Proof.
  destruct act as [a p|a ev|c]; cbn [step].
  - right; right; left. eauto.
  - destruct (listener_cases st a ev)
      as [E|[(d & Hd & _ & Ha & E)|(_ & Ha & Hi & E)]].
    + now left.
    + right; right; right; left. exists a, d. now rewrite E.
    + right; right; right; right. now rewrite E.
  - right; left. eauto.
Qed.

Lemma step_in_sync st (act : Action) : in_sync st -> in_sync (step st act).
Proof.
  intros H.
  destruct (step_cases st act)
    as [E|[(c & _ & E)|[(a & p & _ & E)|[(a & d & _ & _ & E)|(_ & _ & E)]]]];
    rewrite E; clear E.
  - exact H.
  - exact H.
  - rewrite sendMessage_begin_eq. unfold in_sync. cbn [updates messages isLoading].
    now rewrite last_snoc.
  - rewrite accept_delta_eq. unfold in_sync.
    destruct (currentAssistantMessage st);
      cbn [updates messages isLoading]; now rewrite last_snoc.
  - rewrite accept_idle_eq. unfold in_sync. cbn [updates messages isLoading].
    now rewrite last_snoc.
Qed.

(** X12: whatever happens to a session, the last call of the update callback
    carried the message list and the loading flag as they now are (and
    before the first call the list is empty and the flag false): no change
    of the list or of the flag goes unreported. *)
Theorem updates_track_the_session (acts : list Action) (sid : string) :
  in_sync (run acts (newSession sid)).
Proof.
  assert (H : forall st, in_sync st -> in_sync (run acts st)).
  { induction acts as [|act acts IH]; intros st Hs; [exact Hs|].
    change (run (act :: acts) st) with (run acts (step st act)).
    apply IH. now apply step_in_sync. }
  apply H. now split.
Qed.

Lemma well_formed_append d (m : Message) :
  well_formed m -> well_formed (append_content d m).
Proof.
  unfold well_formed. cbn. destruct (role m); [auto|].
  intros [Hc Hs]. split; [|exact Hs]. now apply falsy_app.
Qed.

Lemma well_formed_clear (m : Message) :
  well_formed m -> role m = assistant -> well_formed (clear_streaming m).
Proof.
  unfold well_formed. cbn. intros H E. rewrite E in *.
  destruct H as [Hc _]. split; eauto.
Qed.

Lemma step_well_formed st (act : Action) :
  Forall well_formed (heap st) ->
  (forall l m, currentAssistantMessage st = Some l -> heap st !! l = Some m ->
     role m = assistant) ->
  Forall well_formed (heap (step st act)) /\
  (forall l m, currentAssistantMessage (step st act) = Some l ->
     heap (step st act) !! l = Some m -> role m = assistant).
Proof.
  intros H Hr.
  destruct (step_cases st act)
    as [E|[(c & _ & E)|[(a & p & _ & E)|[(a & d & Hd & _ & E)|(_ & _ & E)]]]];
    rewrite E; clear E.
  - now split.
  - now split.
  - rewrite sendMessage_begin_eq. cbn [heap currentAssistantMessage].
    split; [|discriminate].
    apply Forall_app. split; [exact H|]. now repeat constructor.
  - rewrite accept_delta_eq.
    destruct (currentAssistantMessage st) as [l|] eqn:Hl;
      cbn [heap currentAssistantMessage].
    + split.
      * apply Forall_alter; [exact H|]. intros m _. apply well_formed_append.
      * intros l' m [= <-]. rewrite list_lookup_alter_eq.
        destruct (heap st !! l) as [m0|] eqn:Hm; [|discriminate].
        cbn. intros [= <-]. cbn. now apply (Hr l m0).
    + split.
      * apply Forall_app. split; [exact H|]. repeat constructor; cbn; eauto.
        now apply falsy_false.
      * intros l' m [= <-].
        rewrite lookup_app_r, Nat.sub_diag by lia. now intros [= <-].
  - rewrite accept_idle_eq. cbn [heap currentAssistantMessage].
    split; [|discriminate].
    destruct (currentAssistantMessage st) as [l|] eqn:Hl; [|exact H].
    apply Forall_alter; [exact H|]. intros m Hm Hw.
    apply well_formed_clear; [exact Hw|]. now apply (Hr l m).
Qed.

Lemma view_in_heap st (m : Message) : m ∈ view st -> m ∈ heap st.
Proof.
  unfold view. intros H. apply list_elem_of_omap in H as (l & _ & Hl).
  apply list_elem_of_lookup. eauto.
Qed.

(** X13: whatever happens to a session, every assistant message in it holds
    text and a streaming flag, and no user message carries the flag; so the
    detail pane of an answered question always shows the answer's text,
    never the placeholder for an empty one. *)
Theorem assistant_messages_hold_text (acts : list Action) (sid : string)
  (question answer : Message) :
  let st := run acts (newSession sid) in
  Forall well_formed (heap st) /\
  (answer ∈ view st -> role answer = assistant ->
     ChatView.detailMarkdown (question, Some answer) = content answer).
Proof.
  cbv zeta.
  assert (H : forall st,
    Forall well_formed (heap st) ->
    (forall l m, currentAssistantMessage st = Some l -> heap st !! l = Some m ->
       role m = assistant) ->
    Forall well_formed (heap (run acts st))).
  { induction acts as [|act acts IH]; intros st Hw Hr; [exact Hw|].
    change (run (act :: acts) st) with (run acts (step st act)).
    destruct (step_well_formed st act Hw Hr) as [Hw' Hr']. now apply IH. }
  assert (Hall : Forall well_formed (heap (run acts (newSession sid)))).
  { apply H; [constructor | discriminate]. }
  split; [exact Hall|].
  intros Hin Hrole. apply view_in_heap in Hin.
  rewrite Forall_forall in Hall. specialize (Hall answer Hin).
  unfold well_formed in Hall. rewrite Hrole in Hall. destruct Hall as [Hc _].
  unfold ChatView.detailMarkdown. cbn [snd]. now rewrite Hc.
Qed.

(** The message a late delta opens: while it is the one in progress the
    latch is set, so no idle event reaches it. *)
Lemma step_stuck (l : nat) st (act : Action) :
  (exists m, heap st !! l = Some m /\ isStreaming m = Some true) ->
  (currentAssistantMessage st = Some l -> idleProcessed st = true) ->
  (exists m, heap (step st act) !! l = Some m /\ isStreaming m = Some true) /\
  (currentAssistantMessage (step st act) = Some l ->
     idleProcessed (step st act) = true).
Proof.
  intros (m & Hm & Hs) Hlatch.
  pose proof (lookup_lt_Some _ _ _ Hm) as Hlt.
  destruct (step_cases st act)
    as [E|[(c & _ & E)|[(a & p & _ & E)|[(a & d & _ & _ & E)|(_ & Hi & E)]]]];
    rewrite E; clear E.
  - split; eauto.
  - split; eauto.
  - rewrite sendMessage_begin_eq. cbn [heap currentAssistantMessage].
    split; [|discriminate]. exists m. now rewrite lookup_app_l.
  - rewrite accept_delta_eq.
    destruct (currentAssistantMessage st) as [l'|] eqn:Hl;
      cbn [heap currentAssistantMessage idleProcessed].
    + split; [|exact Hlatch].
      destruct (decide (l' = l)) as [->|Hne].
      * exists (append_content d m). now rewrite list_lookup_alter_eq, Hm.
      * exists m. now rewrite list_lookup_alter_ne.
    + split; [exists m; now rewrite lookup_app_l|].
      intros [= E]. lia.
  - rewrite accept_idle_eq. cbn [heap currentAssistantMessage].
    split; [|discriminate].
    destruct (currentAssistantMessage st) as [l'|] eqn:Hl; [|eauto].
    destruct (decide (l' = l)) as [->|Hne].
    + specialize (Hlatch eq_refl). congruence.
    + exists m. now rewrite list_lookup_alter_ne.
Qed.

(** X14: a delta that arrives after its response was finalised (the latch is
    set, nothing is in progress) opens a new message flagged as streaming,
    and nothing that happens later, be it events, sends or a change of
    session, ever clears that flag. *)
Theorem late_delta_stays_flagged st a d (acts : list Action) :
  active st = true -> idleProcessed st = true ->
  currentAssistantMessage st = None -> d <> "" ->
  let st1 := listener a (assistant_message_delta (Some d)) st in
  heap st1 !! length (heap st)
    = Some (mkMessage (randomUUID a) assistant d (now a) (Some true)) /\
  exists m, heap (run acts st1) !! length (heap st) = Some m /\
            isStreaming m = Some true.
Proof.
  intros Ha Hi Hc Hd. cbv zeta.
  rewrite (listener_delta_new st a d Ha Hd Hc).
  set (st1 := mkState _ _ _ _ _ _ _ _ _ _).
  assert (H0 : heap st1 !! length (heap st)
               = Some (mkMessage (randomUUID a) assistant d (now a) (Some true))).
  { subst st1. cbn [heap]. now rewrite lookup_app_r, Nat.sub_diag by lia. }
  split; [exact H0|].
  assert (H : forall s,
    (exists m, heap s !! length (heap st) = Some m /\ isStreaming m = Some true) ->
    (currentAssistantMessage s = Some (length (heap st)) ->
       idleProcessed s = true) ->
    exists m, heap (run acts s) !! length (heap st) = Some m
              /\ isStreaming m = Some true).
  { induction acts as [|act acts IH]; intros s Hm Hl; [exact Hm|].
    change (run (act :: acts) s) with (run acts (step s act)).
    destruct (step_stuck _ s act Hm Hl) as [Hm' Hl']. now apply IH. }
  apply H; [eauto|]. intros _. exact Hi.
Qed.

Lemma late_delta_stays_flagged_witness :
  let a := mkAmbient "id-1" 1 in
  let st := run [Send a "q"; Event a (assistant_message_delta (Some "answer"));
                 Event a session_idle] (newSession "s") in
  (active st = true /\ idleProcessed st = true /\
   currentAssistantMessage st = None /\ "late" <> "") /\
  exists m,
    heap (run [Event a session_idle; Send a "next"; Event a session_idle]
            (listener a (assistant_message_delta (Some "late")) st))
      !! length (heap st) = Some m /\
    isStreaming m = Some true.
Proof.
  cbn zeta. split; [repeat split; discriminate|].
  apply (late_delta_stays_flagged
           (run [Send (mkAmbient "id-1" 1) "q";
                 Event (mkAmbient "id-1" 1) (assistant_message_delta (Some "answer"));
                 Event (mkAmbient "id-1" 1) session_idle] (newSession "s"))
           (mkAmbient "id-1" 1) "late"
           [Event (mkAmbient "id-1" 1) session_idle;
            Send (mkAmbient "id-1" 1) "next";
            Event (mkAmbient "id-1" 1) session_idle]);
    try reflexivity; discriminate.
Defined.

End SessionInvariants.

(** ** The chat view *)

Section View.

Import Vocabulary Models.

Implicit Types (m n : Message) (rest ms : list Message).

Lemma messagePairs_assistant m rest :
  role m = assistant ->
  ChatView.messagePairs (m :: rest) = ChatView.messagePairs rest.
Proof. intros H. cbn. now rewrite H. Qed.

Lemma messagePairs_unanswered_last m :
  role m = user -> ChatView.messagePairs [m] = [(m, None)].
Proof. intros H. cbn. now rewrite H. Qed.

Lemma messagePairs_answered m n rest :
  role m = user -> role n = assistant ->
  ChatView.messagePairs (m :: n :: rest)
  = (m, Some n) :: ChatView.messagePairs rest.
Proof. intros Hm Hn. cbn. now rewrite Hm, Hn. Qed.

Lemma messagePairs_unanswered m n rest :
  role m = user -> role n = user ->
  ChatView.messagePairs (m :: n :: rest)
  = (m, None) :: ChatView.messagePairs (n :: rest).
Proof. intros Hm Hn. cbn. now rewrite Hm, Hn. Qed.

(** Induction along the way the pairing loop walks the list. *)
Lemma pairing_ind (P : list Message -> Prop) :
  P [] ->
  (forall m rest, role m = assistant -> P rest -> P (m :: rest)) ->
  (forall m, role m = user -> P [m]) ->
  (forall m n rest, role m = user -> role n = assistant -> P rest ->
     P (m :: n :: rest)) ->
  (forall m n rest, role m = user -> role n = user -> P (n :: rest) ->
     P (m :: n :: rest)) ->
  forall ms, P ms.
Proof.
  intros H0 Ha H1 Hua Huu ms.
  assert (H : forall k ms, length ms <= k -> P ms).
  { induction k as [|k IH]; intros l Hl.
    - destruct l; [exact H0 | cbn in Hl; lia].
    - destruct l as [|m [|n rest]]; [exact H0| |].
      + destruct (role m) eqn:Hm; [now apply H1 | apply Ha; [exact Hm | exact H0]].
      + cbn in Hl. destruct (role m) eqn:Hm.
        * destruct (role n) eqn:Hn.
          -- apply Huu; try assumption. apply IH. cbn. lia.
          -- apply Hua; try assumption. apply IH. lia.
        * apply Ha; [exact Hm|]. apply IH. cbn. lia. }
  now apply (H (length ms)).
Qed.

Lemma last_map {A B} (f : A -> B) (l : list A) :
  last (map f l) = option_map f (last l).
Proof.
  induction l as [|x [|y l] IH]; [reflexivity | reflexivity |].
  exact IH.
Qed.

Lemma filter_nonempty (l : list Message) :
  Nat.ltb 0 (length (List.filter is_user l)) = existsb is_user l.
Proof.
  induction l as [|m l IH]; [reflexivity|]. cbn.
  destruct (is_user m); [reflexivity | exact IH].
Qed.

Lemma is_user_of_role m : is_user m = match role m with user => true | assistant => false end.
Proof. reflexivity. Qed.

Lemma pairs_users ms :
  map fst (ChatView.messagePairs ms) = List.filter is_user ms.
Proof.
  induction ms as [|m rest Hm IH|m Hm|m n rest Hm Hn IH|m n rest Hm Hn IH]
    using pairing_ind.
  - reflexivity.
  - rewrite (messagePairs_assistant m rest Hm). cbn [List.filter].
    now rewrite (is_user_of_role m), Hm.
  - rewrite (messagePairs_unanswered_last m Hm). cbn [map fst List.filter].
    now rewrite (is_user_of_role m), Hm.
  - rewrite (messagePairs_answered m n rest Hm Hn). cbn [map fst List.filter].
    now rewrite (is_user_of_role m), (is_user_of_role n), Hm, Hn, IH.
  - rewrite (messagePairs_unanswered m n rest Hm Hn). cbn [map fst].
    rewrite IH. cbn [List.filter].
    now rewrite (is_user_of_role m), Hm.
Qed.

(** X16: the pairing shows every user message once, in order, whatever lies
    between them; the answers it attaches are assistant messages; there is
    something to show exactly when a user message exists, and the item
    selected is the last user message. *)
Theorem messagePairs_follow_the_user_messages ms :
  map fst (ChatView.messagePairs ms) = List.filter is_user ms /\
  Forall (fun shown => forall answer, snd shown = Some answer ->
                                     role answer = assistant)
    (ChatView.messagePairs ms) /\
  ChatView.hasMessages ms = existsb is_user ms /\
  ChatView.latestMessageId ms = option_map id (last (List.filter is_user ms)).
Proof.
  split; [apply pairs_users|]. split; [|split].
  - induction ms as [|m rest Hm IH|m Hm|m n rest Hm Hn IH|m n rest Hm Hn IH]
      using pairing_ind.
    + constructor.
    + now rewrite (messagePairs_assistant m rest Hm).
    + rewrite (messagePairs_unanswered_last m Hm).
      repeat constructor. intros answer [=].
    + rewrite (messagePairs_answered m n rest Hm Hn).
      constructor; [|exact IH]. now intros answer [= <-].
    + rewrite (messagePairs_unanswered m n rest Hm Hn).
      constructor; [|exact IH]. intros answer [=].
  - unfold ChatView.hasMessages.
    rewrite <- filter_nonempty, <- pairs_users. now rewrite length_map.
  - unfold ChatView.latestMessageId.
    rewrite <- pairs_users, last_map.
    now destruct (last (ChatView.messagePairs ms)).
Qed.

Lemma pairs_orphan ms rest (a1 a2 : Message) :
  role a1 = assistant -> role a2 = assistant ->
  ChatView.messagePairs (ms ++ a1 :: a2 :: rest)
  = ChatView.messagePairs (ms ++ a1 :: rest).
Proof.
  intros H1 H2.
  induction ms as [|m ms' Hm IH|m Hm|m n ms' Hm Hn IH|m n ms' Hm Hn IH]
    using pairing_ind; cbn [app].
  - now rewrite !messagePairs_assistant.
  - now rewrite !(messagePairs_assistant m), IH.
  - rewrite !(messagePairs_answered m a1) by assumption.
    now rewrite messagePairs_assistant.
  - rewrite !(messagePairs_answered m n) by assumption. now rewrite IH.
  - rewrite !(messagePairs_unanswered m n) by assumption.
    cbn [app] in IH. now rewrite IH.
Qed.

(** The list holds every message object once, in the order of creation. *)
Lemma step_listed (st : State) (act : Action) :
  messages st = seq 0 (length (heap st)) ->
  messages (step st act) = seq 0 (length (heap (step st act))).
Proof.
  intros H.
  destruct (step_cases st act)
    as [E|[(c & _ & E)|[(a & p & _ & E)|[(a & d & _ & _ & E)|(_ & _ & E)]]]];
    rewrite E; clear E.
  - exact H.
  - exact H.
  - rewrite sendMessage_begin_eq. cbn [messages heap].
    now rewrite length_app, Nat.add_1_r, seq_S, H.
  - rewrite accept_delta_eq.
    destruct (currentAssistantMessage st); cbn [messages heap].
    + now rewrite length_alter.
    + now rewrite length_app, Nat.add_1_r, seq_S, H.
  - rewrite accept_idle_eq. cbn [messages heap].
    destruct (currentAssistantMessage st); [now rewrite length_alter | exact H].
Qed.

Lemma run_listed (acts : list Action) (sid : string) :
  messages (run acts (newSession sid))
  = seq 0 (length (heap (run acts (newSession sid)))).
Proof.
  assert (H : forall st, messages st = seq 0 (length (heap st)) ->
                         messages (run acts st)
                         = seq 0 (length (heap (run acts st)))).
  { induction acts as [|act acts IH]; intros st Hs; [exact Hs|].
    change (run (act :: acts) st) with (run acts (step st act)).
    apply IH. now apply step_listed. }
  now apply H.
Qed.

Lemma listed_view (st : State) :
  messages st = seq 0 (length (heap st)) -> view st = heap st.
Proof.
  intros H. unfold view. rewrite H.
  exact (view_all_objects [] (heap st)).
Qed.

(** X17: an assistant message that comes right after another assistant
    message is not shown at all, wherever it stands in the list.  So on any
    session whose list ends with an answer and which has nothing in
    progress, the text of a further delta (one that arrives without a new
    question) is appended to the list and never reaches the screen. *)
Theorem orphan_answers_are_not_shown ms rest (a1 a2 : Message)
  (acts : list Action) (sid : string) (a : Ambient) (d : string) :
  role a1 = assistant -> role a2 = assistant ->
  ChatView.messagePairs (ms ++ a1 :: a2 :: rest)
  = ChatView.messagePairs (ms ++ a1 :: rest) /\
  (let st := run acts (newSession sid) in
   active st = true -> currentAssistantMessage st = None -> d <> "" ->
   last (view st) = Some a1 ->
   let st' := listener a (assistant_message_delta (Some d)) st in
   view st'
   = view st ++ [mkMessage (randomUUID a) assistant d (now a) (Some true)]
   /\ ChatView.messagePairs (view st') = ChatView.messagePairs (view st)).
Proof.
  intros H1 H2. split; [now apply pairs_orphan|].
  cbv zeta. intros Ha Hc Hd Hlast.
  pose proof (run_listed acts sid) as Hl.
  pose proof (run_listed (acts ++ [Event a (assistant_message_delta (Some d))]) sid)
    as Hl'.
  unfold run in Hl'. rewrite fold_left_app in Hl'. cbn [fold_left step] in Hl'.
  fold (run acts (newSession sid)) in Hl'.
  rewrite (listed_view _ Hl') , (listed_view _ Hl) in *.
  rewrite (listener_delta_new _ a d Ha Hd Hc). cbn [heap].
  split; [reflexivity|].
  apply last_Some in Hlast as [h' ->]. rewrite <- app_assoc. cbn [app].
  now apply pairs_orphan.
Qed.

Lemma orphan_answers_are_not_shown_witness :
  let a := mkAmbient "id-1" 1 in
  let acts := [Send a "first"; Event a (assistant_message_delta (Some "x"));
               Send a "second"; Event a (assistant_message_delta (Some "y"));
               Event a session_idle] in
  let st := run acts (newSession "s") in
  let answer := mkMessage "id-1" assistant "y" 1 (Some false) in
  (role answer = assistant /\ active st = true /\
   currentAssistantMessage st = None /\ "more" <> "" /\
   last (view st) = Some answer) /\
  ChatView.messagePairs
    (view (listener a (assistant_message_delta (Some "more")) st))
  = [(mkMessage "id-1" user "first" 1 None,
      Some (mkMessage "id-1" assistant "x" 1 (Some true)));
     (mkMessage "id-1" user "second" 1 None, Some answer)].
Proof.
  cbn zeta. split; [repeat split; discriminate|].
  destruct (orphan_answers_are_not_shown [] []
              (mkMessage "id-1" assistant "y" 1 (Some false))
              (mkMessage "id-1" assistant "y" 1 (Some false))
              [Send (mkAmbient "id-1" 1) "first";
               Event (mkAmbient "id-1" 1) (assistant_message_delta (Some "x"));
               Send (mkAmbient "id-1" 1) "second";
               Event (mkAmbient "id-1" 1) (assistant_message_delta (Some "y"));
               Event (mkAmbient "id-1" 1) session_idle]
              "s" (mkAmbient "id-1" 1) "more" eq_refl eq_refl) as [_ H].
  destruct (H eq_refl eq_refl ltac:(discriminate) eq_refl) as [_ Hp].
  rewrite Hp. reflexivity.
Defined.

Lemma existsb_has_id (e : ModelEntry) (l : list ModelEntry) :
  In e l -> existsb (ChatView.has_id (model_id (info e))) l = true.
Proof.
  intros H. apply existsb_exists. exists e. split; [exact H|].
  apply String.eqb_refl.
Qed.

(** X18: after [loadModels], starting from the initial selection, the selected
    model is always one of the available ones and the list is never empty;
    a saved model is taken whenever it is available; otherwise the first
    model that is not premium is taken, if there is one.  The built-in
    fallback list has none, so there the choice falls on its first entry. *)
Theorem loadModels_selects_an_available_model
  (fetched : option (list ModelEntry)) (saved : option (option string))
  (models : list ModelEntry) (s : string) (sel : string) :
  let out := ChatView.loadModels fetched saved "gpt-4o-mini" in
  existsb (ChatView.has_id (snd out)) (fst out) = true /\
  Nat.ltb 0 (length (fst out)) = true /\
  (s <> "" ->
   existsb (ChatView.has_id s)
     (fst (ChatView.loadModels (Some models) (Some (Some s)) sel)) = true ->
   snd (ChatView.loadModels (Some models) (Some (Some s)) sel) = s) /\
  (forall e,
     List.find (fun entry => negb (isModelPremium (info entry)))
       (fst (ChatView.loadModels (Some models) (Some None) sel)) = Some e ->
     snd (ChatView.loadModels (Some models) (Some None) sel)
       = model_id (info e)) /\
  List.find (fun entry => negb (isModelPremium (info entry))) ChatView.FALLBACK_MODELS
    = None /\
  ChatView.loadModels (Some []) (Some None) sel
    = (ChatView.FALLBACK_MODELS, "gpt-4o-mini").
Proof.
  cbv zeta. split; [|split; [|split; [|split; [|split]]]].
  - destruct fetched as [ms|], saved as [sv|]; try reflexivity.
    unfold ChatView.loadModels. cbn [fst snd].
    set (final := if Nat.ltb 0 _ then _ else _).
    assert (Hne : exists e, head final = Some e).
    { subst final.
      destruct (List.filter _ ms) as [|e l]; cbn; eauto. }
    destruct sv as [sv|]; cbn [default from_option].
    + destruct (negb (falsy sv) && existsb (ChatView.has_id sv) final) eqn:Hh.
      * apply andb_true_iff in Hh as [_ Hh]. exact Hh.
      * destruct (List.find _ final) as [e|] eqn:Hf.
        -- apply find_some in Hf as [Hin _]. now apply existsb_has_id.
        -- destruct Hne as [e He]. rewrite He. apply existsb_has_id.
           destruct final; [discriminate|]. injection He as <-. now left.
    + destruct (List.find _ final) as [e|] eqn:Hf.
      * apply find_some in Hf as [Hin _]. now apply existsb_has_id.
      * destruct Hne as [e He]. rewrite He. apply existsb_has_id.
        destruct final; [discriminate|]. injection He as <-. now left.
  - destruct fetched as [ms|], saved as [sv|]; try reflexivity.
    unfold ChatView.loadModels. cbn [fst].
    destruct (List.filter _ ms); reflexivity.
  - intros Hs Hin. unfold ChatView.loadModels in *. cbn [fst snd] in *.
    rewrite (falsy_false s Hs), Hin. reflexivity.
  - intros e He. unfold ChatView.loadModels in *. cbn [fst snd] in *.
    now rewrite He.
  - reflexivity.
  - reflexivity.
Qed.

Lemma loadModels_selects_an_available_model_witness :
  let claude := mkEntry (mkModel "claude" (Some (mkBilling (Some 1%Q) JUndefined)))
                  "Claude" true None in
  let free := mkEntry (mkModel "gpt-5-mini" (Some (mkBilling (Some 0%Q) JUndefined)))
                "GPT-5 mini" false None in
  "claude" <> "" /\
  snd (ChatView.loadModels (Some [free; claude]) (Some (Some "claude")) "gpt-4o-mini")
    = "claude" /\
  snd (ChatView.loadModels (Some [claude; free]) (Some None) "gpt-4o-mini")
    = "gpt-5-mini".
Proof.
  cbn zeta. split; [discriminate|]. split.
  - destruct (loadModels_selects_an_available_model None None
      [mkEntry (mkModel "gpt-5-mini" (Some (mkBilling (Some 0%Q) JUndefined)))
         "GPT-5 mini" false None;
       mkEntry (mkModel "claude" (Some (mkBilling (Some 1%Q) JUndefined)))
         "Claude" true None]
      "claude" "gpt-4o-mini") as (_ & _ & H & _).
    apply H; [discriminate | reflexivity].
  - destruct (loadModels_selects_an_available_model None None
      [mkEntry (mkModel "claude" (Some (mkBilling (Some 1%Q) JUndefined)))
         "Claude" true None;
       mkEntry (mkModel "gpt-5-mini" (Some (mkBilling (Some 0%Q) JUndefined)))
         "GPT-5 mini" false None]
      "claude" "gpt-4o-mini") as (_ & _ & _ & H & _).
    now apply (H (mkEntry (mkModel "gpt-5-mini" (Some (mkBilling (Some 0%Q) JUndefined)))
                    "GPT-5 mini" false None)).
Defined.

(** X19: the description and the partition read the multiplier differently: a
    model with multiplier 1 and no premium flag is described as free tier
    and classified premium, and one with multiplier 0 is described as
    premium and classified free.  Without billing both call it free. *)
Theorem description_and_partition_disagree
  (show : Q -> string) (e : ModelEntry) (b : Billing) (q : Q) :
  billing (info e) = Some b -> is_premium b = JUndefined ->
  multiplier b = Some q ->
  ((q == 1)%Q ->
     In "Free tier" (descriptionParts show e) /\
     isModelPremium (info e) = true) /\
  ((q == 0)%Q ->
     In (show q ++ "x premium")%string (descriptionParts show e) /\
     isModelPremium (info e) = false) /\
  (forall e', billing (info e') = None ->
     In "Free tier" (descriptionParts show e') /\
     isModelPremium (info e') = false).
Proof.
  intros Hb Hf Hm.
  assert (Hp : isModelPremium (info e) = gt0 q).
  { unfold isModelPremium. now rewrite Hb, Hf, Hm. }
  assert (Hq : multiplier_or_1 e = q).
  { unfold multiplier_or_1. now rewrite Hb, Hm. }
  split; [|split].
  - intros E. split.
    + unfold descriptionParts. rewrite Hq.
      rewrite (proj2 (Qeq_bool_iff q 1) E).
      apply in_or_app. right. now left.
    + rewrite Hp. apply gt0_iff. rewrite E. reflexivity.
  - intros E. split.
    + unfold descriptionParts. rewrite Hq.
      destruct (Qeq_bool q 1) eqn:X.
      * apply Qeq_bool_iff in X. rewrite E in X. discriminate.
      * apply in_or_app. right. now left.
    + rewrite Hp. destruct (gt0 q) eqn:X; [|reflexivity].
      apply gt0_iff in X. rewrite E in X. discriminate.
  - intros e' Hn. split.
    + unfold descriptionParts, multiplier_or_1. rewrite Hn. cbn.
      apply in_or_app. right. now left.
    + unfold isModelPremium. now rewrite Hn.
Qed.

Lemma description_and_partition_disagree_witness :
  let e := mkEntry (mkModel "gpt-4o-mini" (Some (mkBilling (Some 1%Q) JUndefined)))
             "GPT-4o Mini" false None in
  (billing (info e) = Some (mkBilling (Some 1%Q) JUndefined) /\ (1 == 1)%Q) /\
  In "Free tier" (descriptionParts (fun _ => "1") e) /\
  isModelPremium (info e) = true.
Proof.
  cbn zeta. split; [split; reflexivity|].
  destruct (description_and_partition_disagree (fun _ => "1")
              (mkEntry (mkModel "gpt-4o-mini" (Some (mkBilling (Some 1%Q) JUndefined)))
                 "GPT-4o Mini" false None)
              (mkBilling (Some 1%Q) JUndefined) 1%Q eq_refl eq_refl eq_refl)
    as [H _].
  apply H. reflexivity.
Defined.

End View.

(** ** Sending from the view *)

Section Sending2.

Import Vocabulary.

Implicit Types (st : State) (a : Ambient).

Lemma strip_prefix_some (p l r : list ascii) :
  CopilotProbe.strip_prefix p l = Some r -> l = p ++ r.
Proof.
  revert l. induction p as [|c p IH]; intros l; cbn.
  - now intros [= ->].
  - destruct l as [|b l]; [discriminate|].
    destruct (Ascii.eqb_spec c b) as [->|]; [|discriminate].
    intros H. now rewrite (IH l H).
Qed.

Lemma strip_any_some (ps : list (list ascii)) (l r : list ascii) :
  CopilotProbe.strip_any ps l = Some r -> exists w, In w ps /\ l = w ++ r.
Proof.
  induction ps as [|p ps IH]; cbn; [discriminate|].
  destruct (CopilotProbe.strip_prefix p l) as [r'|] eqn:E.
  - intros [= ->]. exists p. split; [now left | now apply strip_prefix_some].
  - intros H. destruct (IH H) as (w & Hw & ->). exists w. split; [now right | reflexivity].
Qed.

(** What [trim_left] removes is a run of the given patterns. *)
Lemma trim_left_split (ps : list (list ascii)) (fuel : nat) :
  forall l, exists ws,
    Forall (fun w => In w ps) ws /\
    l = concat ws ++ CopilotProbe.trim_left ps fuel l.
Proof.
  induction fuel as [|fuel IH]; intros l; cbn [CopilotProbe.trim_left].
  - exists []. now split.
  - destruct (CopilotProbe.strip_any ps l) as [r|] eqn:E.
    + destruct (strip_any_some ps l r E) as (w & Hw & ->).
      destruct (IH r) as (ws & Hws & Hr).
      exists (w :: ws). split; [now constructor|].
      cbn [concat]. rewrite <- app_assoc. now rewrite <- Hr.
    + exists []. now split.
Qed.

(** No white-space pattern is the beginning of another one. *)
Lemma strip_any_white (w l : list ascii) :
  In w CopilotProbe.whiteSpace ->
  CopilotProbe.strip_any CopilotProbe.whiteSpace (w ++ l) = Some l.
Proof.
  intros H. unfold CopilotProbe.whiteSpace in H. cbn in H.
  repeat (destruct H as [<-|H]; [reflexivity|]). destruct H.
Qed.

Lemma white_nonempty (w : list ascii) :
  In w CopilotProbe.whiteSpace -> 1 <= length w.
Proof.
  intros H. unfold CopilotProbe.whiteSpace in H. cbn in H.
  repeat (destruct H as [<-|H]; [cbn; lia|]). destruct H.
Qed.

Lemma length_concat_white (ws : list (list ascii)) :
  Forall (fun w => In w CopilotProbe.whiteSpace) ws ->
  length ws <= length (concat ws).
Proof.
  induction 1 as [|w ws Hw _ IH]; [reflexivity|].
  cbn [concat length]. rewrite length_app.
  pose proof (white_nonempty w Hw). lia.
Qed.

Lemma trim_left_white (ws : list (list ascii)) :
  Forall (fun w => In w CopilotProbe.whiteSpace) ws ->
  forall fuel, length ws <= fuel ->
  CopilotProbe.trim_left CopilotProbe.whiteSpace fuel (concat ws) = [].
Proof.
  induction 1 as [|w ws Hw _ IH]; intros fuel Hf.
  - now destruct fuel.
  - destruct fuel as [|fuel]; [cbn in Hf; lia|].
    cbn [concat CopilotProbe.trim_left]. rewrite (strip_any_white w _ Hw).
    apply IH. cbn in Hf. lia.
Qed.

Lemma rev_concat_white (rws : list (list ascii)) :
  Forall (fun w => In w (map (@rev ascii) CopilotProbe.whiteSpace)) rws ->
  exists ws, Forall (fun w => In w CopilotProbe.whiteSpace) ws /\
             rev (concat rws) = concat ws.
Proof.
  induction 1 as [|rw rws Hrw _ IH].
  - exists []. now split.
  - destruct IH as (ws & Hws & E). apply in_map_iff in Hrw as (w & <- & Hw).
    exists (ws ++ [w]). split.
    + apply Forall_app. split; [exact Hws|].
      constructor; [exact Hw | constructor].
    + cbn [concat]. rewrite rev_app_distr, rev_involutive, E.
      rewrite concat_app. cbn [concat]. now rewrite app_nil_r.
Qed.

(** [trim] leaves nothing exactly of the strings made of white space. *)
Lemma trim_empty_iff (s : string) : CopilotProbe.trim s = "" <-> blank s.
Proof.
  unfold CopilotProbe.trim, blank. cbv zeta.
  set (l := list_ascii_of_string s).
  split.
  - intros H.
    destruct (trim_left_split CopilotProbe.whiteSpace (length l) l)
      as (ws1 & H1 & E1).
    set (l1 := CopilotProbe.trim_left CopilotProbe.whiteSpace (length l) l) in *.
    destruct (trim_left_split (map (@rev ascii) CopilotProbe.whiteSpace)
                (length (rev l1)) (rev l1)) as (rws & H2 & E2).
    set (x := CopilotProbe.trim_left _ (length (rev l1)) (rev l1)) in *.
    assert (Hx : x = []).
    { destruct (rev x) as [|c r] eqn:R; [|discriminate H].
      apply (f_equal (@rev ascii)) in R. now rewrite rev_involutive in R. }
    rewrite Hx, app_nil_r in E2.
    destruct (rev_concat_white rws H2) as (ws2 & Hw2 & E3).
    exists (ws1 ++ ws2). split; [now apply Forall_app|].
    rewrite concat_app, <- E3, <- E2, rev_involutive. exact E1.
  - intros (ws & Hws & E). rewrite E.
    now rewrite (trim_left_white ws Hws _ (length_concat_white ws Hws)).
Qed.

(** X20: [handleSendMessage] does nothing (no send, the search text left as
    it is) when there is no session, and exactly then when there is one and
    the message is made only of white space.  Otherwise it clears the
    search text and sends the trimmed text: the user message appended holds
    it, and a failure reaches the toast with its message if it is an
    [Error] and with the fixed text otherwise. *)
Theorem handleSendMessage_drops_blank_messages
  st a (message : string) (v : VendorCall) (thrown_is_error : bool)
  (searchText : string) :
  ChatView.handleSendMessage None a message v thrown_is_error searchText
    = (searchText, None) /\
  (blank message ->
     ChatView.handleSendMessage (Some st) a message v thrown_is_error searchText
     = (searchText, None)) /\
  (~ blank message ->
     exists st',
       ChatView.handleSendMessage (Some st) a message v thrown_is_error
         searchText
       = ("",
          Some (st',
                match rejection v with
                | Some message_of_error =>
                    Some (if thrown_is_error then message_of_error
                          else "Failed to send message")
                | None => None
                end))
       /\ st' = fst (sendMessage a (CopilotProbe.trim message) v st)
       /\ CopilotProbe.trim message <> ""
       /\ heap st' !! length (heap st)
          = Some (mkMessage (randomUUID a) user (CopilotProbe.trim message)
                    (now a) None)).
Proof.
  split; [reflexivity|]. split.
  - intros H. apply trim_empty_iff in H.
    unfold ChatView.handleSendMessage. now rewrite H.
  - intros Hb.
    assert (H : CopilotProbe.trim message <> "").
    { intros E. apply Hb. now apply trim_empty_iff. }
    unfold ChatView.handleSendMessage. rewrite (falsy_false _ H).
    unfold sendMessage. eexists. split; [reflexivity|].
    split; [reflexivity|]. split; [exact H|].
    destruct (deliver_settled _ (delivered v) _
                (sendMessage_begin_settled st a (CopilotProbe.trim message)))
      as (Hs & Ht & _).
    rewrite firstn_all in Ht.
    assert (Hl : length (heap st)
                 < length (heap (sendMessage_begin a (CopilotProbe.trim message) st))).
    { rewrite sendMessage_begin_eq. cbn [heap]. rewrite length_app. cbn. lia. }
    rewrite <- (lookup_take_lt _ _ _ Hl), Ht.
    rewrite sendMessage_begin_eq. cbn [heap].
    now rewrite lookup_app_r, Nat.sub_diag by lia.
Qed.

Lemma handleSendMessage_drops_blank_messages_witness :
  let nbsp := CopilotProbe.bytes [194; 160] in
  let nl := String (ascii_of_nat 10) EmptyString in
  let st := newSession "s" in
  let a := mkAmbient "id-1" 1 in
  let failed := mkVendorCall [] (Some "timeout") in
  (blank (" " ++ nbsp ++ nl)%string /\ CopilotProbe.trim " hi " = "hi") /\
  ChatView.handleSendMessage (Some st) a (" " ++ nbsp ++ nl)%string failed
    false "draft" = ("draft", None) /\
  exists st',
    ChatView.handleSendMessage (Some st) a " hi " failed false "draft"
      = ("", Some (st', Some "Failed to send message")) /\
    heap st' !! 0 = Some (mkMessage "id-1" user "hi" 1 None).
Proof.
  cbn zeta.
  assert (B : blank (" " ++ CopilotProbe.bytes [194; 160]
                     ++ String (ascii_of_nat 10) EmptyString)%string).
  { apply trim_empty_iff. reflexivity. }
  assert (N : ~ blank " hi ").
  { intros H. apply trim_empty_iff in H. discriminate H. }
  split; [split; [exact B | reflexivity]|].
  destruct (handleSendMessage_drops_blank_messages (newSession "s")
              (mkAmbient "id-1" 1)
              (" " ++ CopilotProbe.bytes [194; 160]
               ++ String (ascii_of_nat 10) EmptyString)%string
              (mkVendorCall [] (Some "timeout")) false "draft")
    as (_ & Hblank & _).
  split; [exact (Hblank B)|].
  destruct (handleSendMessage_drops_blank_messages (newSession "s")
              (mkAmbient "id-1" 1) " hi "
              (mkVendorCall [] (Some "timeout")) false "draft")
    as (_ & _ & H).
  destruct (H N) as (st' & E & _ & _ & Hm).
  exists st'. split; [exact E | exact Hm].
Defined.

Lemma deliver_in_sync (evs : list (Ambient * SessionEvent)) st :
  in_sync st -> in_sync (deliver evs st).
Proof.
  revert st. induction evs as [|[a ev] evs IH]; intros st H; [exact H|].
  rewrite deliver_cons. apply IH. cbn [fst snd].
  exact (step_in_sync st (Event a ev) H).
Qed.

Lemma deliver_deltas_isLoading (ds : list (Ambient * option string)) st :
  isLoading (deliver (map delta ds) st) = isLoading st.
Proof.
  revert st. induction ds as [|[a dc] ds IH]; intros st; [reflexivity|].
  cbn [map]. rewrite deliver_cons, IH. cbn [delta fst snd].
  destruct (listener_cases st a (assistant_message_delta dc))
    as [E|[(d & _ & _ & _ & E)|(F & _)]].
  - now rewrite E.
  - rewrite E, accept_delta_eq. now destruct (currentAssistantMessage st).
  - discriminate.
Qed.

(** X15: a send whose vendor call delivers deltas but no idle event, whether it
    then resolves or rejects, leaves the session loading: the last thing
    the update callback heard is the current list with loading true.
    Nothing in [sendMessage] turns the flag off when the call fails. *)
Theorem send_without_idle_stays_loading
  st a (prompt : string) (ds : list (Ambient * option string))
  (failure : option string) :
  let st' := fst (sendMessage a prompt (mkVendorCall (map delta ds) failure) st) in
  isLoading st' = true /\
  last (updates st') = Some (messages st', true) /\
  snd (sendMessage a prompt (mkVendorCall (map delta ds) failure) st) = failure.
Proof.
  cbv zeta. unfold sendMessage. cbn [fst snd delivered rejection].
  assert (Hl : isLoading (deliver (map delta ds) (sendMessage_begin a prompt st))
               = true).
  { now rewrite deliver_deltas_isLoading. }
  split; [exact Hl|]. split; [|reflexivity].
  assert (Hs : in_sync (deliver (map delta ds) (sendMessage_begin a prompt st))).
  { apply deliver_in_sync. rewrite sendMessage_begin_eq. unfold in_sync.
    cbn [updates messages isLoading]. now rewrite last_snoc. }
  unfold in_sync in Hs.
  destruct (last (updates _)) as [[shown flag]|] eqn:E.
  - destruct Hs as [-> ->]. now rewrite Hl.
  - destruct Hs as [_ Hf]. congruence.
Qed.

End Sending2.

(** ** Setting the session up again *)

Section Setup.

Import Vocabulary.

Implicit Types (h : CopilotProbe.Host) (g : Lifecycle.Globals).



(** X4 on hosts: one with both tools, one without gh and without the
    config file. *)
Lemma getCopilotStatus_shape_witness :
  let both := example_host ["/usr/local/bin/copilot"; "/usr/local/bin/gh"]
                (fun _ => CopilotProbe.Resolved "1.2.3" "") in
  let alone := example_host ["/usr/local/bin/copilot"]
                 (fun _ => CopilotProbe.Resolved "1.2.3" "") in
  (CopilotProbe.isLoggedIn (CopilotProbe.result CopilotProbe.getCopilotStatus both)
     = true /\
   CopilotProbe.isInstalled (CopilotProbe.result CopilotProbe.getCopilotStatus both)
     = true) /\
  truthy (CopilotProbe.status_error
            (CopilotProbe.result CopilotProbe.getCopilotStatus alone)) = true.
Proof.
  cbn zeta. split.
  - split; [reflexivity|].
    destruct (getCopilotStatus_shape
                (example_host ["/usr/local/bin/copilot"; "/usr/local/bin/gh"]
                   (fun _ => CopilotProbe.Resolved "1.2.3" ""))) as (H & _).
    now apply H.
  - destruct (getCopilotStatus_shape
                (example_host ["/usr/local/bin/copilot"]
                   (fun _ => CopilotProbe.Resolved "1.2.3" ""))) as (_ & _ & H).
    rewrite H. reflexivity.
Defined.

(** X13 on a run: a question, its answer in two deltas, the idle event. *)
Lemma assistant_messages_hold_text_witness :
  let a := mkAmbient "id-1" 1 in
  let acts := [Send a "q"; Event a (assistant_message_delta (Some "an"));
               Event a (assistant_message_delta (Some "swer"));
               Event a session_idle] in
  let answer := mkMessage "id-1" assistant "answer" 1 (Some false) in
  (answer ∈ view (run acts (newSession "s")) /\ role answer = assistant) /\
  ChatView.detailMarkdown (mkMessage "id-1" user "q" 1 None, Some answer)
  = "answer".
Proof.
  cbn zeta.
  assert (Hin : mkMessage "id-1" assistant "answer" 1 (Some false)
                ∈ view (run [Send (mkAmbient "id-1" 1) "q";
                             Event (mkAmbient "id-1" 1) (assistant_message_delta (Some "an"));
                             Event (mkAmbient "id-1" 1) (assistant_message_delta (Some "swer"));
                             Event (mkAmbient "id-1" 1) session_idle]
                          (newSession "s"))).
  { apply list_elem_of_lookup. now exists 1. }
  split; [split; [exact Hin | reflexivity]|].
  destruct (assistant_messages_hold_text
              [Send (mkAmbient "id-1" 1) "q";
               Event (mkAmbient "id-1" 1) (assistant_message_delta (Some "an"));
               Event (mkAmbient "id-1" 1) (assistant_message_delta (Some "swer"));
               Event (mkAmbient "id-1" 1) session_idle] "s"
              (mkMessage "id-1" user "q" 1 None)
              (mkMessage "id-1" assistant "answer" 1 (Some false))) as [_ H].
  exact (H Hin eq_refl).
Defined.

End Setup.
